(** * cvat-core/src/frames.js: the per-task frame cache and chunk requests

    A shallow embedding of [frames.js].  JavaScript numbers that hold frame
    indices, chunk sizes and task identifiers are integers ([Z]); the two
    floating-point quotients of the file ([Math.floor (a / b)] and
    [parseInt (a / b, 10)]) are taken over the exact quotient, the second
    with what [parseInt] does to a number printed in exponent notation.  The
    module's global [frameDataCache] is a finite map from task identifiers to
    records;
    promises are named by numbers and every call of a [resolve] or [reject]
    continuation, of [serverProxy.frames.getData] and of the caller's
    [onServerRequest] is written to a trace.

    The module is run in two ways.  An [Event] of [step] is a whole call or
    a whole settlement: a call of [getFrame] with the answer about the meta
    information, and the [then], [catch] and [finally] handlers of a
    [getData] promise, with nothing in between.  A [Reaction] of [react] is
    one handler, as the JavaScript engine runs it to its end before the next
    one starts; schedules of reactions interleave the handlers of different
    promises in every order.  [step_as_reactions] relates the two. *)

From Stdlib Require Import ZArith QArith Qround Lia.
From stdpp Require Import gmap strings list.

Local Close Scope Q_scope.
Local Open Scope Z_scope.

(** ** Numbers *)

(** [Math.floor (a / b)] for integers [a] and [b <> 0]. *)
Definition Math_floor_div (a b : Z) : Z := a `div` b.

(** The first significant decimal digit of [a / b], for [0 < a < b]. *)
Fixpoint leadingDigit (fuel : nat) (a b : Z) : Z :=
  match fuel with
  | O => 0
  | S fuel => if b <=? a then a `div` b else leadingDigit fuel (10 * a) b
  end.

(** The first decimal digit of an integer [q >= 1]. *)
Fixpoint firstDigit (fuel : nat) (q : Z) : Z :=
  match fuel with
  | O => q
  | S fuel => if q <? 10 then q else firstDigit fuel (q `div` 10)
  end.

(** [parseInt (a / b, 10)] for integers [a] and [b <> 0].  [parseInt]
    prints its argument and reads the integer the text starts with.  A
    quotient of magnitude at least [1e-6] and below [1e21] is printed in
    positional notation, so that the fraction is dropped: rounding towards
    zero.  A smaller quotient other than 0 is printed as [d.ddde-k], and a
    quotient of at least [1e21] as [d.ddde+k]; of both [parseInt] reads the
    digit [d] (with the sign).  The digit is taken from the exact quotient;
    the number that JavaScript prints is the quotient rounded to a double,
    so the two agree unless the rounding carries into the first digit.  The
    properties below that are stated for all frames are stated for integers
    below [2^52], of which products and sums are exact and the quotient,
    rounded to a double, has the integer part of the exact quotient, and
    for quotients that are 0 or at least [1e-6]. *)
Definition parseInt_div (a b : Z) : Z :=
  if negb (a =? 0) && (1000000 * Z.abs a <? Z.abs b)
  then Z.sgn a * Z.sgn b
       * leadingDigit (S (Z.to_nat (Z.log2 (Z.abs b)))) (Z.abs a) (Z.abs b)
  else if 1000000000000000000000 * Z.abs b <=? Z.abs a
  then Z.sgn a * Z.sgn b
       * firstDigit (S (Z.to_nat (Z.log2 (Z.abs a)))) (Z.abs a `div` Z.abs b)
  else a `quot` b.

(** [x || 1] on numbers: [0] is falsy. *)
Definition or_1 (x : Z) : Z := if x =? 0 then 1 else x.

(** ** Data *)

Inductive BlockType := MP4VIDEO | ARCHIVE.

(** [chunkType === 'video' ? cvatData.BlockType.MP4VIDEO : cvatData.BlockType.ARCHIVE] *)
Definition blockType_of (chunkType : string) : BlockType :=
  if String.eqb chunkType "video" then MP4VIDEO else ARCHIVE.

(** The decoded-frames limit of [getFrame] (lines 288-290):
    [Math.floor(2147483648 / 1920 / 1080 / 4 / chunkSize) || 1] for video,
    [Math.floor(500 / chunkSize) || 1] otherwise.  The chain of divisions is
    kept as written, over the rationals. *)
Definition decodedBlocksCacheSize_of (blockType : BlockType) (chunkSize : Z) : Z :=
  match blockType with
  | MP4VIDEO =>
      or_1 (Qfloor (inject_Z 2147483648 / inject_Z 1920 / inject_Z 1080
                    / inject_Z 4 / inject_Z chunkSize)%Q)
  | ARCHIVE => or_1 (Qfloor (inject_Z 500 / inject_Z chunkSize)%Q)
  end.

(** The chunk of a frame (lines 93-101): [(chunkNumber, start, stop)]. *)
Definition chunkOf (number startFrame stopFrame chunkSize : Z) : Z * Z * Z :=
  let start := Z.max startFrame (parseInt_div number chunkSize * chunkSize) in
  let stop := Z.min stopFrame ((parseInt_div number chunkSize + 1) * chunkSize - 1) in
  let chunkNumber := Math_floor_div number chunkSize in
  (chunkNumber, start, stop).

#[global] Arguments chunkOf : simpl never.

(** A frame size as the server's meta information lists it. *)
Record Size := { width : Z; height : Z }.

(** Modelled from the spec: error values.  Of [exceptions.js] the file uses
    the class [Exception], the uniform domain error that carries the original
    message (in [instanceof] tests and to wrap foreign errors), and its
    subclass [ArgumentError], the argument error. *)
Inductive Message :=
| MetaNotReceived (frame : Z)   (* `Meta information about frame ${frame} can't be received from the server` *)
| InvalidMode (mode : string)   (* `Invalid mode is specified ${mode}` *)
| Text (message : string).

Inductive Error :=
| ArgumentError (message : Message)
| Exception (message : Message)
| ForeignError (message : Message).   (* a TypeError, a network error, ... *)

(** [exception instanceof Exception ? exception : new Exception(exception.message)] *)
Definition asException (exception : Error) : Error :=
  match exception with
  | ForeignError message => Exception message
  | _ => exception
  end.

(** The message of the [TypeError] raised by a property access on [undefined]. *)
Definition undefinedAccess : Error := ForeignError (Text "TypeError").

(** [exception instanceof Exception]: true of [Exception] and of its
    subclass [ArgumentError]. *)
Definition instanceof_Exception (exception : Error) : bool :=
  match exception with
  | ForeignError _ => false
  | _ => true
  end.

(** The instance made by [new FrameData(...)]: six read-only properties. *)
Record FrameData := {
  fd_width : Z;
  fd_height : Z;
  tid : Z;
  number : Z;
  startFrame : Z;
  stopFrame : Z;
}.

(** What the closures [onDecodeAll] and [rejectRequestAll] of one call of
    [data] capture: [this.tid] and the call's [chunkNumber]. *)
Record Closure := { cl_tid : Z; cl_chunkNumber : Z }.

(** One entry of a [callbacks] array: [resolve] and [reject] of the promise
    of one [data] call, and [frameNumber]. *)
Record Callback := { promise : nat; frameNumber : Z }.

(** An [activeChunkRequest] or [nextChunkRequest] object. *)
Record ChunkRequest := {
  request : option nat;          (* the pending [getData] promise, once started *)
  chunkNumber : Z;
  start : Z;
  stop : Z;
  onDecodeAll_ref : Closure;
  rejectRequestAll_ref : Closure;
  completed : bool;
  callbacks : list Callback;
}.

(** What [frames.js] requires from outside: the [FrameProvider] of
    [cvat-data] (the decoder) and the flags of [browser-or-node]. *)
Class External := {
  FrameProvider : Type;
  Frame : Type;                  (* a decoded frame *)
  Chunk : Type;                  (* the payload of [serverProxy.frames.getData] *)
  Range : Type;                  (* an entry of [provider.cachedFrames] *)
  new_FrameProvider : BlockType → Z → Z → Z → Z → FrameProvider;
  setRenderSize : FrameProvider → Z → Z → FrameProvider;
  isChunkCached : FrameProvider → Z → Z → bool;
  requestDecodeBlock :
    FrameProvider → option Chunk → Z → Z → Closure → Closure → FrameProvider;
  cachedFrames : FrameProvider → list Range;
  isNode : bool;
  isBrowser : bool;
}.

Section Model.
Context `{External}.

(** An entry of [frameDataCache]. *)
Record TaskDataCache := {
  meta : list Size;
  chunkSize : Z;
  provider : FrameProvider;
  lastFrameRequest : Z;
  decodedBlocksCacheSize : Z;
  activeChunkRequest : option ChunkRequest;
  nextChunkRequest : option ChunkRequest;
}.

(** What a pending [getData] promise will run when it settles: the handlers
    attached by [makeActiveRequest], a closure of one [data] call that
    captured [this.tid] and the [reject] of that call's promise. *)
Record Fetch := { fetch_tid : Z; fetch_reject : nat }.

(** The module's state: [frameDataCache], and the [getData] promises that
    have not settled yet, named in the order of their creation. *)
Record World := {
  frameDataCache : gmap Z TaskDataCache;
  fetches : gmap nat Fetch;
  fetchCount : nat;
}.

(** ** The trace *)

Inductive Value :=
| DummyData                      (* 'Dummy data' *)
| Decoded (frame : Frame)        (* the frame [provider.frame] answered *)
| ProviderFrame (frameNumber : Z). (* the promise [provider.frame(frameNumber)] *)

Inductive Reason :=
| ByFrameNumber (frameNumber : Z)  (* [r.reject(r.frameNumber)] *)
| ByError (exception : Error).

Inductive Action :=
| OnServerRequest (p : nat)
| GetData (taskID chunkNumber : Z)
| Resolve (p : nat) (v : Value)
| Reject (p : nat) (r : Reason).

(** ** Assignments to properties *)

Definition set_activeChunkRequest (v : option ChunkRequest) (c : TaskDataCache) :=
  {| meta := meta c; chunkSize := chunkSize c; provider := provider c;
     lastFrameRequest := lastFrameRequest c;
     decodedBlocksCacheSize := decodedBlocksCacheSize c;
     activeChunkRequest := v; nextChunkRequest := nextChunkRequest c |}.

Definition set_nextChunkRequest (v : option ChunkRequest) (c : TaskDataCache) :=
  {| meta := meta c; chunkSize := chunkSize c; provider := provider c;
     lastFrameRequest := lastFrameRequest c;
     decodedBlocksCacheSize := decodedBlocksCacheSize c;
     activeChunkRequest := activeChunkRequest c; nextChunkRequest := v |}.

Definition set_provider (v : FrameProvider) (c : TaskDataCache) :=
  {| meta := meta c; chunkSize := chunkSize c; provider := v;
     lastFrameRequest := lastFrameRequest c;
     decodedBlocksCacheSize := decodedBlocksCacheSize c;
     activeChunkRequest := activeChunkRequest c;
     nextChunkRequest := nextChunkRequest c |}.

Definition set_lastFrameRequest (v : Z) (c : TaskDataCache) :=
  {| meta := meta c; chunkSize := chunkSize c; provider := provider c;
     lastFrameRequest := v;
     decodedBlocksCacheSize := decodedBlocksCacheSize c;
     activeChunkRequest := activeChunkRequest c;
     nextChunkRequest := nextChunkRequest c |}.

Definition set_callbacks (v : list Callback) (r : ChunkRequest) :=
  {| request := request r; chunkNumber := chunkNumber r; start := start r;
     stop := stop r; onDecodeAll_ref := onDecodeAll_ref r;
     rejectRequestAll_ref := rejectRequestAll_ref r;
     completed := completed r; callbacks := v |}.

Definition set_completed (v : bool) (r : ChunkRequest) :=
  {| request := request r; chunkNumber := chunkNumber r; start := start r;
     stop := stop r; onDecodeAll_ref := onDecodeAll_ref r;
     rejectRequestAll_ref := rejectRequestAll_ref r;
     completed := v; callbacks := callbacks r |}.

Definition set_request (v : option nat) (r : ChunkRequest) :=
  {| request := v; chunkNumber := chunkNumber r; start := start r;
     stop := stop r; onDecodeAll_ref := onDecodeAll_ref r;
     rejectRequestAll_ref := rejectRequestAll_ref r;
     completed := completed r; callbacks := callbacks r |}.

(** [frameDataCache[taskID] = c] *)
Definition set_cache (taskID : Z) (c : TaskDataCache) (w : World) : World :=
  {| frameDataCache := <[taskID := c]> (frameDataCache w);
     fetches := fetches w; fetchCount := fetchCount w |}.

(** ** [getFrame] and [getRanges] *)

(** [meta[frame]]: [undefined] outside the array. *)
Definition index (meta : list Size) (frame : Z) : option Size :=
  if frame <? 0 then None else meta !! Z.to_nat frame.

(** [getFrameSize] (lines 261-279): the size, [undefined] ([None]) when the
    array has no such entry, or the [ArgumentError] thrown. *)
Definition getFrameSize (mode : string) (frame : Z) (meta : list Size)
  : Error + option Size :=
  if String.eqb mode "interpolation" then inr (head meta)
  else if String.eqb mode "annotation" then
    if Z.of_nat (length meta) <=? frame
    then inl (ArgumentError (MetaNotReceived frame))
    else inr (index meta frame)
  else inl (ArgumentError (InvalidMode mode)).

(** The entry [getFrame] stores for a task it sees for the first time
    (lines 282-303). *)
Definition createdEntry (chunkSize : Z) (chunkType : string) (frame : Z)
    (meta : list Size) : TaskDataCache :=
  {| meta := meta; chunkSize := chunkSize;
     provider := new_FrameProvider (blockType_of chunkType) chunkSize 9
                   (decodedBlocksCacheSize_of (blockType_of chunkType) chunkSize) 1;
     lastFrameRequest := frame;
     decodedBlocksCacheSize := decodedBlocksCacheSize_of (blockType_of chunkType) chunkSize;
     activeChunkRequest := None;
     nextChunkRequest := None |}.

(** [getFrame] (lines 260-310).  [metaReply] is what
    [await serverProxy.frames.getMeta(taskID)] yields when the task is not in
    the cache yet: the meta information, or the error the request failed
    with.  The result is the state left behind and either the error the call
    fails with or the [FrameData] it returns.  This is the call with nothing
    running between the test of line 281 and the assignment of line 292;
    [GetFrameCalled] and [MetaArrived] of [react] are the two parts of a
    first call, between which other handlers run. *)
Definition getFrame (taskID chunkSize : Z) (chunkType mode : string)
    (frame startFrame stopFrame : Z) (metaReply : Error + list Size)
    (w : World) : World * (Error + FrameData) :=
  let created :=
    match frameDataCache w !! taskID with
    | Some _ => inr w
    | None =>
        match metaReply with
        | inl exception => inl exception
        | inr meta => inr (set_cache taskID (createdEntry chunkSize chunkType frame meta) w)
        end
    end in
  match created with
  | inl exception => (w, inl exception)
  | inr w1 =>
      match frameDataCache w1 !! taskID with
      | None => (w1, inl undefinedAccess)
      | Some c =>
          match getFrameSize mode frame (meta c) with
          | inl exception => (w1, inl exception)
          | inr size =>
              let c1 := set_lastFrameRequest frame c in
              match size with
              | None => (set_cache taskID c1 w1, inl undefinedAccess)
              | Some size =>
                  let c2 := set_provider
                              (setRenderSize (provider c1) (width size) (height size)) c1 in
                  (set_cache taskID c2 w1,
                   inr {| fd_width := width size; fd_height := height size;
                          tid := taskID; number := frame;
                          startFrame := startFrame; stopFrame := stopFrame |})
              end
          end
      end
  end.

(** [getRanges] (lines 312-318), with the state it leaves behind. *)
Definition getRanges (taskID : Z) (w : World) : World * list Range :=
  match frameDataCache w !! taskID with
  | None => (w, [])
  | Some c => (w, cachedFrames (provider c))
  end.

(** ** The closures of [FrameData.prototype.data.implementation] *)

(** [for (const r of callbacks) r.reject(r.frameNumber)] *)
Definition rejectEach (callbacks : list Callback) : list Action :=
  map (λ r, Reject (promise r) (ByFrameNumber (frameNumber r))) callbacks.

(** The loop of [onDecodeAll] (lines 107-113): the array is walked from its
    last index down to 0; an entry for [frame] is spliced out and then
    resolved with [provider.frame(callback.frameNumber)].  The result is the
    array that is left and the calls made, in the order they are made. *)
Fixpoint spliceResolved (frame : Z) (callbackArray : list Callback)
  : list Callback * list Action :=
  match callbackArray with
  | [] => ([], [])
  | callback :: lower =>
      let '(kept, calls) := spliceResolved frame lower in
      if frameNumber callback =? frame
      then (kept, calls ++ [Resolve (promise callback) (ProviderFrame (frameNumber callback))])
      else (callback :: kept, calls)
  end.

(** [onDecodeAll] (lines 103-118) of the call that captured [cl].  [None]
    stands for the [TypeError] of reading a property of
    [frameDataCache[this.tid]] when the task has no entry. *)
Definition onDecodeAll (cl : Closure) (frame : Z) (w : World)
  : option (World * list Action) :=
  c ← frameDataCache w !! cl_tid cl;
  match activeChunkRequest c with
  | Some active =>
      if cl_chunkNumber cl =? chunkNumber active then
        let '(callbackArray, calls) := spliceResolved frame (callbacks active) in
        let active' :=
          if (length callbackArray =? 0)%nat then None
          else Some (set_callbacks callbackArray active) in
        Some (set_cache (cl_tid cl) (set_activeChunkRequest active' c) w, calls)
      else Some (w, [])
  | None => Some (w, [])
  end.

(** [rejectRequestAll] (lines 120-128) of the call that captured [cl]. *)
Definition rejectRequestAll (cl : Closure) (w : World)
  : option (World * list Action) :=
  c ← frameDataCache w !! cl_tid cl;
  match activeChunkRequest c with
  | Some active =>
      if cl_chunkNumber cl =? chunkNumber active then
        Some (set_cache (cl_tid cl) (set_activeChunkRequest None c) w,
              rejectEach (callbacks active))
      else Some (w, [])
  | None => Some (w, [])
  end.

(** The first statements of [makeActiveRequest] (lines 131-134), for the call
    of [data] on task [taskID] whose promise has the continuation [reject]:
    [serverProxy.frames.getData] is called for the chunk of the active
    request and the promise chain is stored in its [request] property.  Both
    call sites have stored an active request just before, so the other
    branches are not reached. *)
Definition makeActiveRequest (taskID : Z) (reject : nat) (w : World)
  : World * list Action :=
  match frameDataCache w !! taskID with
  | Some taskDataCache =>
      match activeChunkRequest taskDataCache with
      | Some activeChunk =>
          let id := fetchCount w in
          ({| frameDataCache :=
                <[taskID := set_activeChunkRequest
                              (Some (set_request (Some id) activeChunk)) taskDataCache]>
                  (frameDataCache w);
              fetches := <[id := {| fetch_tid := taskID; fetch_reject := reject |}]> (fetches w);
              fetchCount := S id |},
           [GetData taskID (chunkNumber activeChunk)])
      | None => (w, [])
      end
  | None => (w, [])
  end.

(** The [then] handler (lines 134-141) on the payload [chunk].  [None] is
    the [TypeError] of line 135 when there is no active request. *)
Definition getData_then (taskID : Z) (chunk : Chunk) (w : World) : option World :=
  taskDataCache ← frameDataCache w !! taskID;
  active ← activeChunkRequest taskDataCache;
  let active' := set_completed true active in
  Some (set_cache taskID
          (set_provider
             (requestDecodeBlock (provider taskDataCache) (Some chunk)
                (start active') (stop active')
                (onDecodeAll_ref active') (rejectRequestAll_ref active'))
             (set_activeChunkRequest (Some active') taskDataCache)) w).

(** The [catch] handler (lines 141-147). *)
Definition getData_catch (reject : nat) (exception : Error) : list Action :=
  [Reject reject (ByError (asException exception))].

(** The [finally] handler (lines 147-158). *)
Definition getData_finally (taskID : Z) (reject : nat) (w : World)
  : World * list Action :=
  match frameDataCache w !! taskID with
  | Some taskDataCache =>
      match nextChunkRequest taskDataCache with
      | Some next =>
          let rejected :=
            match activeChunkRequest taskDataCache with
            | Some active => rejectEach (callbacks active)
            | None => []
            end in
          let promoted :=
            set_nextChunkRequest None
              (set_activeChunkRequest (Some next) taskDataCache) in
          let '(w', calls) := makeActiveRequest taskID reject (set_cache taskID promoted w) in
          (w', rejected ++ calls)
      | None => (w, [])
      end
  | None => (w, [])
  end.

(** A [getData] promise settles: its handlers run one after the other, with
    nothing in between ([ThenRuns], [CatchRuns] and [FinallyRuns] of [react]
    are the handlers one by one). *)
Definition getData_settled (id : nat) (reply : Error + Chunk) (w : World)
  : World * list Action :=
  match fetches w !! id with
  | None => (w, [])
  | Some f =>
      let w0 := {| frameDataCache := frameDataCache w;
                   fetches := delete id (fetches w);
                   fetchCount := fetchCount w |} in
      let '(w1, calls1) :=
        match reply with
        | inr chunk =>
            match getData_then (fetch_tid f) chunk w0 with
            | Some w1 => (w1, [])
            | None => (w0, getData_catch (fetch_reject f) undefinedAccess)
            end
        | inl exception => (w0, getData_catch (fetch_reject f) exception)
        end in
      let '(w2, calls2) := getData_finally (fetch_tid f) (fetch_reject f) w1 in
      (w2, calls1 ++ calls2)
  end.

(** The object literal of lines 174-187 and 203-216. *)
Definition newChunkRequest (this : FrameData) (chunkNumber start stop : Z) (p : nat)
  : ChunkRequest :=
  {| request := None; chunkNumber := chunkNumber; start := start; stop := stop;
     onDecodeAll_ref := {| cl_tid := tid this; cl_chunkNumber := chunkNumber |};
     rejectRequestAll_ref := {| cl_tid := tid this; cl_chunkNumber := chunkNumber |};
     completed := false;
     callbacks := [{| promise := p; frameNumber := number this |}] |}.

(** The body of the handler of [provider.frame(this.number)] for
    [frame === null] (lines 166-226), after [onServerRequest()].  [None] is
    an exception thrown inside it, which the [catch] of line 230 receives. *)
Definition onFrameNull (this : FrameData) (p : nat) (w : World)
  : option (World * list Action) :=
  c ← frameDataCache w !! tid this;
  let '(thisChunk, thisStart, thisStop) :=
    chunkOf (number this) (startFrame this) (stopFrame this) (chunkSize c) in
  let cl := {| cl_tid := tid this; cl_chunkNumber := thisChunk |} in
  let entry := {| promise := p; frameNumber := number this |} in
  if negb (isChunkCached (provider c) thisStart thisStop) then
    match activeChunkRequest c with
    | None =>
        let created := set_activeChunkRequest
                         (Some (newChunkRequest this thisChunk thisStart thisStop p)) c in
        Some (makeActiveRequest (tid this) p (set_cache (tid this) created w))
    | Some active =>
        if completed active then
          '(w1, calls1) ← rejectRequestAll (rejectRequestAll_ref active) w;
          c1 ← frameDataCache w1 !! tid this;
          let created := set_activeChunkRequest
                           (Some (newChunkRequest this thisChunk thisStart thisStop p)) c1 in
          let '(w2, calls2) := makeActiveRequest (tid this) p (set_cache (tid this) created w1) in
          Some (w2, calls1 ++ calls2)
        else if chunkNumber active =? thisChunk then
          Some (set_cache (tid this)
                  (set_activeChunkRequest
                     (Some (set_callbacks (callbacks active ++ [entry]) active)) c) w,
                [])
        else
          let rejected :=
            match nextChunkRequest c with
            | Some next => rejectEach (callbacks next)
            | None => []
            end in
          Some (set_cache (tid this)
                  (set_nextChunkRequest
                     (Some (newChunkRequest this thisChunk thisStart thisStop p)) c) w,
                rejected)
    end
  else
    active ← activeChunkRequest c;
    Some (set_cache (tid this)
            (set_provider
               (requestDecodeBlock (provider c) None thisStart thisStop cl cl)
               (set_activeChunkRequest
                  (Some (set_callbacks (callbacks active ++ [entry]) active)) c)) w,
          []).

(** [FrameData.prototype.data.implementation] (lines 89-239) for the promise
    [p] it returns.  Under a browser [reply] is what the promise
    [provider.frame(this.number)] settles with: an error, a frame, or [null]
    ([None]).  [provider] and [chunkSize] are read when the call is made and
    the cache never assigns them again, so the handler reads them here. *)
Definition data_implementation (this : FrameData) (p : nat)
    (reply : Error + option Frame) (w : World) : World * list Action :=
  match frameDataCache w !! tid this with
  | None => (w, [Reject p (ByError undefinedAccess)])
  | Some _ =>
      if isNode then (w, [Resolve p DummyData])
      else if isBrowser then
        match reply with
        | inl exception => (w, [Reject p (ByError (asException exception))])
        | inr (Some frame) => (w, [Resolve p (Decoded frame)])
        | inr None =>
            match onFrameNull this p w with
            | Some (w', calls) => (w', OnServerRequest p :: calls)
            | None => (w, [OnServerRequest p; Reject p (ByError (asException undefinedAccess))])
            end
        end
      else (w, [])
  end.

(** ** Runs *)

(** What can happen to the module: a call of [getFrame] (its result is
    dropped here), a call of [data] together with the answer of the decoder's
    frame lookup, a [getData] promise that settles, the decoder calling one
    of the two closures it was handed, and the decoder changing its own
    state (frames get decoded, blocks get evicted). *)
Inductive Event :=
| CallGetFrame (taskID chunkSize : Z) (chunkType mode : string)
    (frame startFrame stopFrame : Z) (metaReply : Error + list Size)
| CallData (this : FrameData) (p : nat) (reply : Error + option Frame)
| GetDataSettled (id : nat) (reply : Error + Chunk)
| DecoderProgress (cl : Closure) (frame : Z)
| DecoderFailure (cl : Closure)
| DecoderInternal (taskID : Z) (provider' : FrameProvider).

Definition step (w : World) (e : Event) : World * list Action :=
  match e with
  | CallGetFrame taskID chunkSize chunkType mode frame startFrame stopFrame metaReply =>
      (fst (getFrame taskID chunkSize chunkType mode frame startFrame stopFrame metaReply w), [])
  | CallData this p reply => data_implementation this p reply w
  | GetDataSettled id reply => getData_settled id reply w
  | DecoderProgress cl frame => default (w, []) (onDecodeAll cl frame w)
  | DecoderFailure cl => default (w, []) (rejectRequestAll cl w)
  | DecoderInternal taskID provider' =>
      match frameDataCache w !! taskID with
      | Some c => (set_cache taskID (set_provider provider' c) w, [])
      | None => (w, [])
      end
  end.

Fixpoint run (w : World) (events : list Event) : World * list Action :=
  match events with
  | [] => (w, [])
  | e :: events =>
      let '(w1, calls1) := step w e in
      let '(w2, calls2) := run w1 events in
      (w2, calls1 ++ calls2)
  end.

(** The state when the module is loaded. *)
Definition initial : World :=
  {| frameDataCache := ∅; fetches := ∅; fetchCount := 0 |}.

(** The state after a request object [r] has been stored as the active one
    of the entry [c] of [taskID] and [makeActiveRequest] has run for it, in
    terms of the state [w] before. *)
Definition started (taskID : Z) (reject : nat) (r : ChunkRequest)
    (c : TaskDataCache) (w : World) : World :=
  {| frameDataCache :=
       <[taskID := set_activeChunkRequest
                     (Some (set_request (Some (fetchCount w)) r)) c]> (frameDataCache w);
     fetches := <[fetchCount w := {| fetch_tid := taskID; fetch_reject := reject |}]> (fetches w);
     fetchCount := S (fetchCount w) |}.

(** ** Reading a trace *)

(** The calls of [serverProxy.frames.getData] in a trace: task and chunk. *)
Definition getData_calls (calls : list Action) : list (Z * Z) :=
  omap (λ a, match a with GetData taskID k => Some (taskID, k) | _ => None end) calls.

(** Whether a call is a call of [resolve] or [reject] of the promise [p]. *)
Definition settles (p : nat) (a : Action) : bool :=
  match a with
  | Resolve q _ | Reject q _ => bool_decide (q = p)
  | _ => false
  end.

(** How often the continuations of the promise [p] are called in a trace. *)
Definition settlements (p : nat) (calls : list Action) : nat :=
  length (List.filter (settles p) calls).

(** The calls of [data] of a list of frames, each with its promise, with
    the decoder's frame lookup answering [null] to each. *)
Definition misses (requests : list (FrameData * nat)) : list Event :=
  map (λ r, CallData r.1 r.2 (inr None)) requests.




(** ** Requests as [data] builds them

    The closures stored in a request object are those of the call that
    built it, so they captured the task and the chunk number of the request
    itself. *)
Definition wf_request (taskID : Z) (r : ChunkRequest) : Prop :=
  onDecodeAll_ref r = {| cl_tid := taskID; cl_chunkNumber := chunkNumber r |}
  ∧ rejectRequestAll_ref r = {| cl_tid := taskID; cl_chunkNumber := chunkNumber r |}.

Definition wf_cache (taskID : Z) (c : TaskDataCache) : Prop :=
  (∀ r, activeChunkRequest c = Some r → wf_request taskID r)
  ∧ (∀ r, nextChunkRequest c = Some r → wf_request taskID r).

Definition wf_world (w : World) : Prop :=
  ∀ taskID c, frameDataCache w !! taskID = Some c → wf_cache taskID c.

(** ** Requests one after the other *)


(** A step starts the fetch of the waiting request [next] of a task: it
    leaves [next] as the active request, with a pending [getData] promise,
    and no request waiting. *)
Definition starts_next (taskID : Z) (next : ChunkRequest) (w : World) (e : Event)
  : Prop :=
  ∃ c' id',
    frameDataCache (step w e).1 !! taskID = Some c'
    ∧ activeChunkRequest c' = Some (set_request (Some id') next)
    ∧ nextChunkRequest c' = None
    ∧ is_Some (fetches (step w e).1 !! id').

(** Strictly sequential requests, step by step: when a step starts the
    fetch of the waiting next request of a task, the [getData] promise of
    the request that was active until then is not pending any more. *)
Definition next_after_active (w : World) (e : Event) : Prop :=
  ∀ taskID c active next id,
    frameDataCache w !! taskID = Some c →
    activeChunkRequest c = Some active →
    nextChunkRequest c = Some next →
    request active = Some id →
    starts_next taskID next w e →
    fetches (step w e).1 !! id = None.

(** The same for every run of the module from its initial state. *)
Definition strictly_sequential : Prop :=
  ∀ events e, next_after_active (run initial events).1 e.

(** ** Tasks of the cache *)

(** The part of an entry that [getFrame] writes once, when it creates the
    entry. *)
Definition same_task (c c' : TaskDataCache) : Prop :=
  meta c' = meta c ∧ chunkSize c' = chunkSize c
  ∧ decodedBlocksCacheSize c' = decodedBlocksCacheSize c.

(** Every task of [w] is a task of [w'], with the same meta information,
    chunk size and limit of decoded frames. *)
Definition keeps (w w' : World) : Prop :=
  ∀ taskID c, frameDataCache w !! taskID = Some c →
    ∃ c', frameDataCache w' !! taskID = Some c' ∧ same_task c c'.

(** ** Kinds of calls *)

(** A call the module makes when it serves a frame that the decoder does not
    hold: a rejection, or a call of [getData] for the task. *)
Definition turns_away_or_fetches (taskID : Z) (a : Action) : Prop :=
  match a with
  | Reject _ _ => True
  | GetData t _ => t = taskID
  | _ => False
  end.

(** A call that is not a rejection with an error other than an
    [Exception]. *)
Definition no_foreign_error (a : Action) : Prop :=
  match a with
  | Reject _ (ByError exception) => instanceof_Exception exception = true
  | _ => True
  end.

(** ** Callbacks and the promises they belong to *)

(** How many callbacks of an array belong to the promise [p]. *)
Definition waits (p : nat) (callbacks : list Callback) : nat :=
  length (filter (λ r, promise r = p) callbacks).

(** How many callbacks for [p] the two request objects of an entry hold. *)
Definition held (p : nat) (c : TaskDataCache) : nat :=
  (from_option (λ r, waits p (callbacks r)) 0 (activeChunkRequest c)
   + from_option (λ r, waits p (callbacks r)) 0 (nextChunkRequest c))%nat.

(** How many callbacks for [p] the request objects of all tasks hold. *)
Definition holders (p : nat) (w : World) : nat :=
  map_fold (λ _ c n, held p c + n)%nat 0%nat (frameDataCache w).

(** ** Requests and their fetches *)



(** ** Under Node.js *)

(** A state without requests: no [getData] promise is pending and no task
    has an active or a next request. *)
Definition at_rest (w : World) : Prop :=
  fetches w = ∅
  ∧ ∀ taskID c, frameDataCache w !! taskID = Some c →
      activeChunkRequest c = None ∧ nextChunkRequest c = None.

(** What [data] calls under Node.js. *)
Definition dummy_or_unknown (a : Action) : Prop :=
  match a with
  | Resolve _ DummyData => True
  | Reject _ (ByError exception) => exception = undefinedAccess
  | _ => False
  end.

(** ** Handlers one at a time

    [step] runs the [then], [catch] and [finally] handlers of a settled
    [getData] promise one after the other, and a first [getFrame] together
    with the arrival of the meta information.  In the program each of them
    is a reaction of its own, and other handlers can run in between.  A
    [Reaction] is one handler that runs to its end. *)

(** The end of [getFrame] (lines 306-309), which a call on a task in the
    cache reaches at once and a first call when it resumes. *)
Definition getFrame_finish (taskID : Z) (mode : string)
    (frame startFrame stopFrame : Z) (w : World) : World * (Error + FrameData) :=
  match frameDataCache w !! taskID with
  | None => (w, inl undefinedAccess)
  | Some c =>
      match getFrameSize mode frame (meta c) with
      | inl exception => (w, inl exception)
      | inr size =>
          let c1 := set_lastFrameRequest frame c in
          match size with
          | None => (set_cache taskID c1 w, inl undefinedAccess)
          | Some size =>
              let c2 := set_provider
                          (setRenderSize (provider c1) (width size) (height size)) c1 in
              (set_cache taskID c2 w,
               inr {| fd_width := width size; fd_height := height size;
                      tid := taskID; number := frame;
                      startFrame := startFrame; stopFrame := stopFrame |})
          end
      end
  end.

(** A first call of [getFrame] resumes after [await] (lines 285-309) with
    the reply about the meta information: it stores a new entry for the
    task, whether or not another call has stored one in the meantime. *)
Definition getFrame_resume (taskID chunkSize : Z) (chunkType mode : string)
    (frame startFrame stopFrame : Z) (metaReply : Error + list Size)
    (w : World) : World * (Error + FrameData) :=
  match metaReply with
  | inl exception => (w, inl exception)
  | inr meta =>
      getFrame_finish taskID mode frame startFrame stopFrame
        (set_cache taskID (createdEntry chunkSize chunkType frame meta) w)
  end.

Inductive Reaction :=
| GetFrameCalled (taskID chunkSize : Z) (chunkType mode : string)
    (frame startFrame stopFrame : Z)
| MetaArrived (taskID chunkSize : Z) (chunkType mode : string)
    (frame startFrame stopFrame : Z) (metaReply : Error + list Size)
| DataAnswered (this : FrameData) (p : nat) (reply : Error + option Frame)
| ThenRuns (id : nat) (chunk : Chunk)
| CatchRuns (id : nat) (exception : Error)
| FinallyRuns (id : nat)
| ProgressReported (cl : Closure) (frame : Z)
| FailureReported (cl : Closure)
| DecoderChanged (taskID : Z) (provider' : FrameProvider).

(** The state without the pending promise [id]. *)
Definition settled (id : nat) (w : World) : World :=
  {| frameDataCache := frameDataCache w;
     fetches := delete id (fetches w);
     fetchCount := fetchCount w |}.

(** One handler runs.  A call of [getFrame] on a task that is not in the
    cache waits for the meta information and changes nothing until then.
    The [then] handler of a promise that was fulfilled runs first, the
    [catch] handler runs when the promise was rejected or the [then] handler
    threw (then with [undefinedAccess]), the [finally] handler runs last;
    the promise counts as pending until its [finally] handler runs.  The
    handlers of a promise reach the entry of their task through
    [frameDataCache[this.tid]] and through the variable [taskDataCache] of
    [makeActiveRequest]; these are one object, the entry in the cache, as
    long as no first call of [getFrame] has put a new entry in the place of
    the one the fetch started in, and the handlers are modelled for that
    case. *)
Definition react (w : World) (r : Reaction) : World * list Action :=
  match r with
  | GetFrameCalled taskID chunkSize chunkType mode frame startFrame stopFrame =>
      match frameDataCache w !! taskID with
      | Some _ => ((getFrame_finish taskID mode frame startFrame stopFrame w).1, [])
      | None => (w, [])
      end
  | MetaArrived taskID chunkSize chunkType mode frame startFrame stopFrame metaReply =>
      ((getFrame_resume taskID chunkSize chunkType mode frame startFrame stopFrame
          metaReply w).1, [])
  | DataAnswered this p reply => data_implementation this p reply w
  | ThenRuns id chunk =>
      match fetches w !! id with
      | Some f => (default w (getData_then (fetch_tid f) chunk w), [])
      | None => (w, [])
      end
  | CatchRuns id exception =>
      match fetches w !! id with
      | Some f => (w, getData_catch (fetch_reject f) exception)
      | None => (w, [])
      end
  | FinallyRuns id =>
      match fetches w !! id with
      | Some f => getData_finally (fetch_tid f) (fetch_reject f) (settled id w)
      | None => (w, [])
      end
  | ProgressReported cl frame => default (w, []) (onDecodeAll cl frame w)
  | FailureReported cl => default (w, []) (rejectRequestAll cl w)
  | DecoderChanged taskID provider' =>
      match frameDataCache w !! taskID with
      | Some c => (set_cache taskID (set_provider provider' c) w, [])
      | None => (w, [])
      end
  end.

Fixpoint play (w : World) (schedule : list Reaction) : World * list Action :=
  match schedule with
  | [] => (w, [])
  | r :: schedule =>
      let '(w1, calls1) := react w r in
      let '(w2, calls2) := play w1 schedule in
      (w2, calls1 ++ calls2)
  end.

(** The handlers that an event of [step] runs, one after the other. *)
Definition reactions_of (w : World) (e : Event) : list Reaction :=
  match e with
  | CallGetFrame taskID chunkSize chunkType mode frame startFrame stopFrame metaReply =>
      match frameDataCache w !! taskID with
      | Some _ =>
          [GetFrameCalled taskID chunkSize chunkType mode frame startFrame stopFrame]
      | None =>
          [GetFrameCalled taskID chunkSize chunkType mode frame startFrame stopFrame;
           MetaArrived taskID chunkSize chunkType mode frame startFrame stopFrame
             metaReply]
      end
  | CallData this p reply => [DataAnswered this p reply]
  | GetDataSettled id (inl exception) => [CatchRuns id exception; FinallyRuns id]
  | GetDataSettled id (inr chunk) =>
      match fetches w !! id with
      | Some f =>
          match getData_then (fetch_tid f) chunk w with
          | Some _ => [ThenRuns id chunk; FinallyRuns id]
          | None => [ThenRuns id chunk; CatchRuns id undefinedAccess; FinallyRuns id]
          end
      | None => []
      end
  | DecoderProgress cl frame => [ProgressReported cl frame]
  | DecoderFailure cl => [FailureReported cl]
  | DecoderInternal taskID provider' => [DecoderChanged taskID provider']
  end.


(** Whether a reaction is a first [getFrame] call of the task that resumes. *)
Definition resumes (taskID : Z) (r : Reaction) : bool :=
  match r with
  | MetaArrived t _ _ _ _ _ _ _ => bool_decide (t = taskID)
  | _ => false
  end.

(** ** Schedules in which nothing goes wrong *)

(** Whether a reaction is the handler of a call of [data] that returned the
    promise [p]. *)
Definition answers_data (p : nat) (r : Reaction) : bool :=
  match r with
  | DataAnswered _ q _ => bool_decide (q = p)
  | _ => false
  end.

(** How many calls of [data] that are answered in a schedule returned the
    promise [p]. *)
Definition data_answers (p : nat) (schedule : list Reaction) : nat :=
  length (List.filter (answers_data p) schedule).

(** A handler that runs when nothing has gone wrong: it is not the [catch]
    handler of a pending promise (no fetch failed and no [then] handler
    threw); as a [then] handler it finds an active request of its task; as
    a first call of [getFrame] that resumes with the meta information it
    finds no entry of its task. *)
Definition smooth (w : World) (r : Reaction) : Prop :=
  match r with
  | CatchRuns id _ => fetches w !! id = None
  | ThenRuns id chunk =>
      ∀ f, fetches w !! id = Some f → is_Some (getData_then (fetch_tid f) chunk w)
  | MetaArrived taskID _ _ _ _ _ _ (inr _) => frameDataCache w !! taskID = None
  | _ => True
  end.

Fixpoint smooth_play (w : World) (schedule : list Reaction) : Prop :=
  match schedule with
  | [] => True
  | r :: schedule => smooth w r ∧ smooth_play (react w r).1 schedule
  end.

(** ** Handlers that reach a task *)


End Model.

(** ** A decoder to run the model on

    Its state is the list of block ranges it holds decoded, which only the
    decoder itself changes; frames and chunk payloads are numbers. *)
#[export] Instance listDecoder : External := {|
  FrameProvider := list (Z * Z);
  Frame := Z;
  Chunk := Z;
  Range := Z * Z;
  new_FrameProvider := λ _ _ _ _ _, [];
  setRenderSize := λ provider _ _, provider;
  isChunkCached := λ provider start stop, bool_decide ((start, stop) ∈ provider);
  requestDecodeBlock := λ provider _ _ _ _ _, provider;
  cachedFrames := λ provider, provider;
  isNode := false;
  isBrowser := true;
|}.

(** ** A task to run the model on

    Task 1: a video of the frames 0..99 in chunks of 10 frames. *)
Definition fullHD : Size := {| width := 1920; height := 1080 |}.

Definition frameOf (n : Z) : FrameData :=
  {| fd_width := 1920; fd_height := 1080; tid := 1; number := n;
     startFrame := 0; stopFrame := 99 |}.

Definition openTask : Event :=
  CallGetFrame 1 10 "video" "interpolation" 0 0 99 (inr [fullHD]).

(** The task is known and idle. *)
Definition w_idle : World := (run initial [openTask]).1.

(** Frames 3 and 7 are wanted (promises 100 and 101); chunk 0 is being
    fetched. *)
Definition w_fetching : World :=
  (run w_idle [CallData (frameOf 3) 100 (inr None);
               CallData (frameOf 7) 101 (inr None)]).1.

(** Frame 15 is wanted as well (promise 102) and waits as the next request. *)
Definition w_waiting : World :=
  (run w_fetching [CallData (frameOf 15) 102 (inr None)]).1.

(** The first [getData] promise settles with a payload. *)
Definition firstSettles : Event := GetDataSettled 0 (inr 0).

(** The payload of chunk 0 has arrived and is with the decoder. *)
Definition w_decoding : World := (run w_fetching [firstSettles]).1.

(** The frames 3, 7 and 15 are wanted; chunk 0 arrives, which starts the
    fetch of chunk 1; chunk 1 arrives and the decoder reports frame 15. *)
Definition threeFrames : list Event :=
  [ openTask;
    CallData (frameOf 3) 100 (inr None);
    CallData (frameOf 7) 101 (inr None);
    CallData (frameOf 15) 102 (inr None);
    firstSettles;
    GetDataSettled 1 (inr 1);
    DecoderProgress {| cl_tid := 1; cl_chunkNumber := 1 |} 15 ].

(** A run in which the decoder reports frame 5 of chunk 0 from an earlier
    decoding while chunk 0 is being fetched again. *)
Definition lateProgress : list Event :=
  [ openTask;
    CallData (frameOf 0) 100 (inr None);
    GetDataSettled 0 (inr 0);
    DecoderProgress {| cl_tid := 1; cl_chunkNumber := 0 |} 0;
    CallData (frameOf 5) 101 (inr None);
    DecoderProgress {| cl_tid := 1; cl_chunkNumber := 0 |} 5;
    CallData (frameOf 15) 102 (inr None);
    CallData (frameOf 25) 103 (inr None) ].

(** The second [getData] promise of that run settles with a payload. *)
Definition secondSettles : Event := GetDataSettled 1 (inr 0).

(** Task 2: the frames 0..9 in one chunk of 2000000 frames. *)
Definition w_oneChunk : World :=
  (run initial [CallGetFrame 2 2000000 "video" "interpolation" 1 0 9 (inr [fullHD])]).1.

Definition secondFrame : FrameData :=
  {| fd_width := 1920; fd_height := 1080; tid := 2; number := 1;
     startFrame := 0; stopFrame := 9 |}.

(** The decoder holds the frames 0..9 while chunk 0 is being fetched. *)
Definition w_cached : World := (run w_fetching [DecoderInternal 1 [(0, 9)]]).1.

(** Frame 3 is wanted a second time (promise 104) while chunk 0 is being
    fetched. *)
Definition w_twice : World :=
  (run w_fetching [CallData (frameOf 3) 104 (inr None)]).1.

(** The late report of frame 5 in the run [lateProgress] has taken the
    active request away while its [getData] promise 1 is pending. *)
Definition w_cleared : World := (run initial (take 6 lateProgress)).1.

(** The decoder holds frame 3 of task 1 and answers it. *)
Definition frameHeld : Event := CallData (frameOf 3) 100 (inr (Some 7)).

(** A fetch that fails for the network. *)
Definition networkError : Error := ForeignError (Text "Network Error").

(** The decoder of the example under Node.js. *)
Definition nodeDecoder : External := {|
  FrameProvider := list (Z * Z);
  Frame := Z;
  Chunk := Z;
  Range := Z * Z;
  new_FrameProvider := λ _ _ _ _ _, [];
  setRenderSize := λ provider _ _, provider;
  isChunkCached := λ provider start stop, bool_decide ((start, stop) ∈ provider);
  requestDecodeBlock := λ provider _ _ _ _ _, provider;
  cachedFrames := λ provider, provider;
  isNode := true;
  isBrowser := false;
|}.



(** The frames 3, 7 and 15 of the run [threeFrames], handler by handler. *)
Definition threeFramesByHandler : list Reaction :=
  [ GetFrameCalled 1 10 "video" "interpolation" 0 0 99;
    MetaArrived 1 10 "video" "interpolation" 0 0 99 (inr [fullHD]);
    DataAnswered (frameOf 3) 100 (inr None);
    DataAnswered (frameOf 7) 101 (inr None);
    ThenRuns 0 0;
    DataAnswered (frameOf 15) 102 (inr None);
    FinallyRuns 0;
    ThenRuns 1 1;
    FinallyRuns 1;
    ProgressReported {| cl_tid := 1; cl_chunkNumber := 1 |} 15 ].

(** ** Tactics *)

(** [evaluate t H] names the value of the closed term [t] as [H : t = value]. *)
Ltac evaluate t H :=
  let v := eval vm_compute in t in
  assert (t = v) as H by (vm_compute; reflexivity).

(** The only request stored in [Some r] is [r]. *)
Ltac wf_some :=
  let r := fresh "r" in let Hr := fresh "Hr" in
  intros r Hr; simplify_eq.

(** [entry_changed lemma Hc] proves that a state in which the entry that
    [Hc] looks up was replaced is related to the state before, by a [lemma]
    about the replacement of one entry. *)
Ltac entry_changed lemma Hc :=
  eapply lemma; [exact Hc| |simpl; reflexivity]; done.

(** * Properties *)

(** ** Numbers *)

Example budget_video_9 : decodedBlocksCacheSize_of MP4VIDEO 9 = 28.
Proof. reflexivity. Qed.

Example budget_archive_9 : decodedBlocksCacheSize_of ARCHIVE 9 = 55.
Proof. reflexivity. Qed.

Lemma Qfloor_div_Z (a b : Z) : Qfloor (inject_Z a / inject_Z b)%Q = a `div` b.
Proof. symmetry. apply Zdiv_Qdiv. Qed.

Lemma video_quotient (chunkSize : Z) :
  0 < chunkSize →
  Qfloor (inject_Z 2147483648 / inject_Z 1920 / inject_Z 1080
          / inject_Z 4 / inject_Z chunkSize)%Q
  = 2147483648 `div` (1920 * 1080 * 4 * chunkSize).
Proof.
  intros Hpos. rewrite <- Qfloor_div_Z. apply Qfloor_comp.
  rewrite !inject_Z_mult. field.
  intros Hz. unfold Qeq in Hz. simpl in Hz. lia.
Qed.

Lemma parseInt_div_floor (a b : Z) :
  0 ≤ a < 2 ^ 52 → 0 < b → a = 0 ∨ b ≤ 1000000 * a →
  parseInt_div a b = Math_floor_div a b.
Proof.
  intros Ha Hb Hsmall. unfold parseInt_div, Math_floor_div.
  change (2 ^ 52) with 4503599627370496 in Ha.
  replace (negb (a =? 0) && (1000000 * Z.abs a <? Z.abs b)) with false.
  - destruct (Z.leb_spec (1000000000000000000000 * Z.abs b) (Z.abs a)); [lia|].
    apply Z.quot_div_nonneg; lia.
  - symmetry. destruct Hsmall as [->|Hle]; [done|].
    apply andb_false_iff. right. apply Z.ltb_ge. lia.
Qed.

Example parseInt_of_5e_7 : parseInt_div 1 2000000 = 5.
Proof. reflexivity. Qed.

Example parseInt_of_1e21 : parseInt_div (10 ^ 21) 1 = 1.
Proof. reflexivity. Qed.

Section Properties.
Context `{External}.

(** ** Setters and lookups *)

Lemma lookup_set_cache_eq taskID c (w : World) :
  frameDataCache (set_cache taskID c w) !! taskID = Some c.
Proof. apply lookup_insert_eq. Qed.

Lemma lookup_set_cache_ne taskID taskID' c (w : World) :
  taskID ≠ taskID' →
  frameDataCache (set_cache taskID c w) !! taskID' = frameDataCache w !! taskID'.
Proof. intros. by apply lookup_insert_ne. Qed.

(** ** [getFrame] *)

Lemma getFrame_entry taskID size0 chunkType mode frame first last
    metaReply (w : World) :
  let res := getFrame taskID size0 chunkType mode frame first last metaReply w in
  ∀ c', frameDataCache res.1 !! taskID = Some c' →
  ∃ c, (frameDataCache w !! taskID = Some c
        ∨ (frameDataCache w !! taskID = None
           ∧ ∃ meta0, metaReply = inr meta0 ∧ c = createdEntry size0 chunkType frame meta0))
       ∧ meta c' = meta c ∧ chunkSize c' = chunkSize c
       ∧ decodedBlocksCacheSize c' = decodedBlocksCacheSize c
       ∧ activeChunkRequest c' = activeChunkRequest c
       ∧ nextChunkRequest c' = nextChunkRequest c.
Proof.
  intros res c' Hc'. subst res. unfold getFrame in Hc'.
  destruct (frameDataCache w !! taskID) as [c|] eqn:Hc.
  - exists c. split; [by left|]. rewrite Hc in Hc'.
    destruct (getFrameSize mode frame (meta c)) as [e|[size|]]; simpl in Hc';
      rewrite ?lookup_insert_eq in Hc'; simplify_eq; done.
  - destruct metaReply as [e|meta0]; simpl in Hc'; [congruence|].
    exists (createdEntry size0 chunkType frame meta0).
    split; [right; eauto|].
    rewrite lookup_insert_eq in Hc'.
    destruct (getFrameSize mode frame _) as [e|[size|]]; simpl in Hc';
      rewrite ?lookup_insert_eq in Hc'; simplify_eq; done.
Qed.

(** C7.  On the first [getFrame] for a task, with a positive chunk size, the
    entry stored for the task has as its limit of decoded frames
    [floor (2^31 / (1920 * 1080 * 4 * chunkSize))] for the chunk type
    ['video'] and [floor (500 / chunkSize)] for any other chunk type, with 1
    in place of a result of 0; for a chunk size of 9 the limit of an archive
    is 55. *)
Theorem decoded_frames_budget taskID size0 chunkType mode frame first last
    meta0 (w : World) :
  0 < size0 →
  frameDataCache w !! taskID = None →
  let res := getFrame taskID size0 chunkType mode frame first last (inr meta0) w in
  let budget :=
    if String.eqb chunkType "video"
    then 2147483648 `div` (1920 * 1080 * 4 * size0)
    else 500 `div` size0 in
  decodedBlocksCacheSize <$> frameDataCache res.1 !! taskID
  = Some (if budget =? 0 then 1 else budget)
  ∧ decodedBlocksCacheSize_of ARCHIVE 9 = 55.
Proof.
  intros Hpos Hnew res budget. split; [|reflexivity].
  destruct (frameDataCache res.1 !! taskID) as [c'|] eqn:Hc'.
  - destruct (getFrame_entry _ _ _ _ _ _ _ _ _ _ Hc')
      as (c & [Hold|(_ & meta1 & _ & ->)] & _ & _ & Hsize & _); [congruence|].
    simpl. f_equal. rewrite Hsize. subst budget. simpl.
    unfold blockType_of, decodedBlocksCacheSize_of, or_1.
    destruct (String.eqb chunkType "video").
    + by rewrite video_quotient.
    + by rewrite Qfloor_div_Z.
  - exfalso. subst res. unfold getFrame in Hc'. rewrite Hnew in Hc'.
    rewrite lookup_set_cache_eq in Hc'.
    destruct (getFrameSize _ _ _) as [e|[size|]]; simpl in Hc';
      rewrite ?lookup_insert_eq in Hc'; discriminate.
Qed.

(** ** [getRanges] *)

(** C9.  [getRanges] answers the empty array for a task that has no entry
    in the cache and otherwise the [cachedFrames] of the task's decoder, and
    leaves the state as it was. *)
Theorem getRanges_report taskID (w : World) :
  getRanges taskID w
  = (w, match frameDataCache w !! taskID with
        | None => []
        | Some c => cachedFrames (provider c)
        end).
Proof. unfold getRanges. by destruct (frameDataCache w !! taskID). Qed.

(** ** Argument errors of [getFrame] *)

Lemma getFrameSize_invalid_mode mode frame meta0 :
  mode ≠ "interpolation" → mode ≠ "annotation" →
  getFrameSize mode frame meta0 = inl (ArgumentError (InvalidMode mode)).
Proof.
  intros H1 H2. unfold getFrameSize.
  apply String.eqb_neq in H1 as ->. by apply String.eqb_neq in H2 as ->.
Qed.

Lemma getFrameSize_out_of_meta frame meta0 :
  Z.of_nat (length meta0) ≤ frame →
  getFrameSize "annotation" frame meta0 = inl (ArgumentError (MetaNotReceived frame)).
Proof.
  intros Hge. unfold getFrameSize. simpl.
  by destruct (Z.leb_spec (Z.of_nat (length meta0)) frame); [|lia].
Qed.

Lemma getFrame_known taskID size0 chunkType mode frame first last metaReply
    (w : World) c e :
  frameDataCache w !! taskID = Some c →
  getFrameSize mode frame (meta c) = inl e →
  getFrame taskID size0 chunkType mode frame first last metaReply w = (w, inl e).
Proof. intros Hc He. unfold getFrame. rewrite Hc. simpl. by rewrite Hc, He. Qed.

Lemma getFrame_first taskID size0 chunkType mode frame first last meta0
    (w : World) e :
  frameDataCache w !! taskID = None →
  getFrameSize mode frame meta0 = inl e →
  getFrame taskID size0 chunkType mode frame first last (inr meta0) w
  = (set_cache taskID (createdEntry size0 chunkType frame meta0) w, inl e).
Proof.
  intros Hc He. unfold getFrame. rewrite Hc, lookup_set_cache_eq. simpl.
  by rewrite He.
Qed.

(** C6, as the code has it.  [getFrame] fails with an [ArgumentError] when
    the mode is neither ['interpolation'] nor ['annotation'], and when the
    mode is ['annotation'] and the frame number is at least the length of
    the task's meta information.  In both cases a task that has an entry in
    the cache keeps the state exactly as it was; for a task without one, the
    entry built from the meta information just received has been stored by
    the time the error is raised. *)
Theorem getFrame_argument_error taskID size0 chunkType mode frame first last
    meta0 (w : World) :
  (mode ≠ "interpolation" ∧ mode ≠ "annotation"
   ∨ mode = "annotation" ∧ Z.of_nat (length meta0) ≤ frame) →
  let e := if String.eqb mode "annotation"
           then ArgumentError (MetaNotReceived frame)
           else ArgumentError (InvalidMode mode) in
  (∀ c metaReply,
      frameDataCache w !! taskID = Some c → meta c = meta0 →
      getFrame taskID size0 chunkType mode frame first last metaReply w = (w, inl e))
  ∧ (frameDataCache w !! taskID = None →
     getFrame taskID size0 chunkType mode frame first last (inr meta0) w
     = (set_cache taskID (createdEntry size0 chunkType frame meta0) w, inl e)).
Proof.
  intros Hcase e.
  assert (getFrameSize mode frame meta0 = inl e) as He.
  { subst e. destruct Hcase as [[H1 H2]|[-> Hge]].
    - rewrite getFrameSize_invalid_mode by done.
      by apply String.eqb_neq in H2 as ->.
    - by rewrite getFrameSize_out_of_meta. }
  split.
  - intros c metaReply Hc <-. by apply getFrame_known with c.
  - intros Hc. by apply getFrame_first.
Qed.

(** ** Late callbacks of the decoder *)

(** C10.  A progress or failure callback of the decoder whose closure
    captured a chunk number other than that of the task's active request, or
    that arrives when the task has no active request, changes nothing and
    calls no continuation. *)
Theorem late_callback_is_inert cl frame (w : World) :
  (∀ c active,
      frameDataCache w !! cl_tid cl = Some c →
      activeChunkRequest c = Some active →
      chunkNumber active ≠ cl_chunkNumber cl) →
  step w (DecoderProgress cl frame) = (w, [])
  ∧ step w (DecoderFailure cl) = (w, []).
Proof.
  intros Hlate. simpl. unfold onDecodeAll, rejectRequestAll.
  destruct (frameDataCache w !! cl_tid cl) as [c|] eqn:Hc; simpl; [|done].
  destruct (activeChunkRequest c) as [active|] eqn:Ha; simpl; [|done].
  specialize (Hlate c active eq_refl Ha).
  destruct (Z.eqb_spec (cl_chunkNumber cl) (chunkNumber active)); [congruence|done].
Qed.

(** ** Requests keep the closures of the call that built them *)

Lemma wf_world_insert taskID c (w w' : World) :
  wf_world w → wf_cache taskID c →
  frameDataCache w' = <[taskID := c]> (frameDataCache w) →
  wf_world w'.
Proof.
  intros Hw Hc Heq t c' Hlook. rewrite Heq in Hlook.
  destruct (decide (taskID = t)) as [->|Hne].
  - rewrite lookup_insert_eq in Hlook. by simplify_eq.
  - rewrite lookup_insert_ne in Hlook by done. by apply Hw.
Qed.

Lemma wf_world_same (w w' : World) :
  wf_world w → frameDataCache w' = frameDataCache w → wf_world w'.
Proof. intros Hw Heq t c Hlook. rewrite Heq in Hlook. by apply Hw. Qed.

Lemma wf_cache_active taskID c v :
  wf_cache taskID c → (∀ r, v = Some r → wf_request taskID r) →
  wf_cache taskID (set_activeChunkRequest v c).
Proof. intros [Ha Hn] Hv. split; simpl; auto. Qed.

Lemma wf_cache_next taskID c v :
  wf_cache taskID c → (∀ r, v = Some r → wf_request taskID r) →
  wf_cache taskID (set_nextChunkRequest v c).
Proof. intros [Ha Hn] Hv. split; simpl; auto. Qed.

Lemma wf_cache_provider taskID c v :
  wf_cache taskID c → wf_cache taskID (set_provider v c).
Proof. intros [Ha Hn]. split; simpl; auto. Qed.

Lemma wf_cache_lastFrameRequest taskID c v :
  wf_cache taskID c → wf_cache taskID (set_lastFrameRequest v c).
Proof. intros [Ha Hn]. split; simpl; auto. Qed.

Lemma wf_request_new this k first last p :
  wf_request (tid this) (newChunkRequest this k first last p).
Proof. by split. Qed.

Lemma wf_initial : wf_world initial.
Proof. intros t c Hlook. simpl in Hlook. by rewrite lookup_empty in Hlook. Qed.

Lemma wf_makeActiveRequest taskID reject (w : World) :
  wf_world w → wf_world (makeActiveRequest taskID reject w).1.
Proof.
  intros Hw. unfold makeActiveRequest.
  destruct (frameDataCache w !! taskID) as [c|] eqn:Hc; [|done].
  destruct (activeChunkRequest c) as [a|] eqn:Ha; [|done]. simpl.
  eapply wf_world_insert; [done| |done].
  destruct (Hw _ _ Hc) as [Hwa Hwn].
  apply wf_cache_active; [done|]. wf_some. apply (Hwa _ Ha).
Qed.

Lemma wf_onDecodeAll cl frame (w w' : World) calls :
  wf_world w → onDecodeAll cl frame w = Some (w', calls) → wf_world w'.
Proof.
  intros Hw. unfold onDecodeAll.
  destruct (frameDataCache w !! cl_tid cl) as [c|] eqn:Hc; simpl; [|done].
  destruct (activeChunkRequest c) as [a|] eqn:Ha; [|by intros; simplify_eq].
  destruct (cl_chunkNumber cl =? chunkNumber a); [|by intros; simplify_eq].
  destruct (spliceResolved frame (callbacks a)) as [kept calls'].
  intros; simplify_eq.
  eapply wf_world_insert; [done| |done].
  destruct (Hw _ _ Hc) as [Hwa Hwn].
  apply wf_cache_active; [done|].
  destruct (length kept =? 0)%nat; wf_some. apply (Hwa _ Ha).
Qed.

Lemma wf_rejectRequestAll cl (w w' : World) calls :
  wf_world w → rejectRequestAll cl w = Some (w', calls) → wf_world w'.
Proof.
  intros Hw. unfold rejectRequestAll.
  destruct (frameDataCache w !! cl_tid cl) as [c|] eqn:Hc; simpl; [|done].
  destruct (activeChunkRequest c) as [a|] eqn:Ha; [|by intros; simplify_eq].
  destruct (cl_chunkNumber cl =? chunkNumber a); intros; simplify_eq; [|done].
  eapply wf_world_insert; [done| |done].
  apply wf_cache_active; [by apply Hw|]. wf_some.
Qed.

Lemma wf_getData_finally taskID reject (w : World) :
  wf_world w → wf_world (getData_finally taskID reject w).1.
Proof.
  intros Hw. unfold getData_finally.
  destruct (frameDataCache w !! taskID) as [c|] eqn:Hc; [|done].
  destruct (nextChunkRequest c) as [n|] eqn:Hn; [|done].
  destruct (makeActiveRequest _ _ _) as [w' calls] eqn:Hm. simpl.
  change w' with (w', calls).1. rewrite <- Hm.
  apply wf_makeActiveRequest.
  eapply wf_world_insert; [done| |done].
  destruct (Hw _ _ Hc) as [Hwa Hwn].
  apply wf_cache_next; [|wf_some].
  apply wf_cache_active; [done|]. wf_some. apply (Hwn _ Hn).
Qed.

Lemma wf_getData_then taskID chunk (w w' : World) :
  wf_world w → getData_then taskID chunk w = Some w' → wf_world w'.
Proof.
  intros Hw. unfold getData_then.
  destruct (frameDataCache w !! taskID) as [c|] eqn:Hc; simpl; [|done].
  destruct (activeChunkRequest c) as [a|] eqn:Ha; simpl; [|done].
  intros; simplify_eq.
  eapply wf_world_insert; [done| |done].
  destruct (Hw _ _ Hc) as [Hwa Hwn].
  apply wf_cache_provider, wf_cache_active; [done|]. wf_some. apply (Hwa _ Ha).
Qed.

Lemma wf_getData_settled id reply (w : World) :
  wf_world w → wf_world (getData_settled id reply w).1.
Proof.
  intros Hw. unfold getData_settled.
  destruct (fetches w !! id) as [f|]; [|done].
  set (w0 := {| frameDataCache := frameDataCache w; fetches := delete id (fetches w);
                fetchCount := fetchCount w |}).
  assert (wf_world w0) as Hw0 by (by apply (wf_world_same w)).
  assert (∃ w1 calls1, wf_world w1 ∧
            match reply with
            | inr chunk =>
                match getData_then (fetch_tid f) chunk w0 with
                | Some w1 => (w1, [])
                | None => (w0, getData_catch (fetch_reject f) undefinedAccess)
                end
            | inl exception => (w0, getData_catch (fetch_reject f) exception)
            end = (w1, calls1)) as (w1 & calls1 & Hw1 & ->).
  { destruct reply as [e|chunk]; [by eauto|].
    destruct (getData_then _ _ _) as [w1|] eqn:Hthen; [|by eauto].
    eauto using wf_getData_then. }
  pose proof (wf_getData_finally (fetch_tid f) (fetch_reject f) w1 Hw1) as Hfin.
  by destruct (getData_finally _ _ _).
Qed.

Lemma wf_onFrameNull this p (w w' : World) calls :
  wf_world w → onFrameNull this p w = Some (w', calls) → wf_world w'.
Proof.
  intros Hw. unfold onFrameNull.
  destruct (frameDataCache w !! tid this) as [c|] eqn:Hc; [|done].
  cbn [mbind option_bind].
  destruct (chunkOf _ _ _ _) as [[k first] last].
  pose proof (Hw _ _ Hc) as Hwc.
  destruct (isChunkCached _ _ _); simpl.
  - destruct (activeChunkRequest c) as [a|] eqn:Ha; simpl; [|done].
    intros; simplify_eq.
    eapply wf_world_insert; [done| |done].
    apply wf_cache_provider, wf_cache_active; [done|]. wf_some.
    destruct Hwc as [Hwa _]. apply (Hwa _ Ha).
  - destruct (activeChunkRequest c) as [a|] eqn:Ha.
    + destruct (completed a).
      * destruct (rejectRequestAll _ _) as [[w1 calls1]|] eqn:Hrej; simpl; [|done].
        pose proof (wf_rejectRequestAll _ _ _ _ Hw Hrej) as Hw1.
        destruct (frameDataCache w1 !! tid this) as [c1|] eqn:Hc1; simpl; [|done].
        destruct (makeActiveRequest _ _ _) as [w2 calls2] eqn:Hm.
        intros; simplify_eq. change w' with (w', calls2).1. rewrite <- Hm.
        apply wf_makeActiveRequest.
        eapply wf_world_insert; [done| |done].
        apply wf_cache_active; [by apply Hw1|]. wf_some. apply wf_request_new.
      * destruct (chunkNumber a =? k); intros; simplify_eq.
        -- eapply wf_world_insert; [done| |done].
           apply wf_cache_active; [done|]. wf_some.
           destruct Hwc as [Hwa _]. apply (Hwa _ Ha).
        -- eapply wf_world_insert; [done| |done].
           apply wf_cache_next; [done|]. wf_some. apply wf_request_new.
    + intros Hm; simplify_eq. change w' with (w', calls).1. rewrite <- Hm.
      apply wf_makeActiveRequest.
      eapply wf_world_insert; [done| |done].
      apply wf_cache_active; [done|]. wf_some. apply wf_request_new.
Qed.

Lemma wf_data_implementation this p reply (w : World) :
  wf_world w → wf_world (data_implementation this p reply w).1.
Proof.
  intros Hw. unfold data_implementation.
  destruct (frameDataCache w !! tid this); [|done].
  destruct isNode; [done|]. destruct isBrowser; [|done].
  destruct reply as [e|[frame|]]; [done..|].
  destruct (onFrameNull this p w) as [[w' calls]|] eqn:Hnull; [|done].
  simpl. eauto using wf_onFrameNull.
Qed.

Lemma wf_getFrame taskID size0 chunkType mode frame first last metaReply
    (w : World) :
  wf_world w →
  wf_world (getFrame taskID size0 chunkType mode frame first last metaReply w).1.
Proof.
  intros Hw t c' Hc'.
  destruct (decide (t = taskID)) as [->|Hne].
  - destruct (getFrame_entry _ _ _ _ _ _ _ _ _ _ Hc')
      as (c & Hc & _ & _ & _ & Ha & Hn).
    split; intros r Hr.
    + rewrite Ha in Hr. destruct Hc as [Hc|(_ & meta0 & _ & ->)]; [|done].
      destruct (Hw _ _ Hc) as [Hwa _]. by apply Hwa.
    + rewrite Hn in Hr. destruct Hc as [Hc|(_ & meta0 & _ & ->)]; [|done].
      destruct (Hw _ _ Hc) as [_ Hwn]. by apply Hwn.
  - apply (Hw t). rewrite <- Hc'. unfold getFrame.
    destruct (frameDataCache w !! taskID) as [c|] eqn:Hc; simpl.
    + rewrite Hc. destruct (getFrameSize _ _ _) as [e|[size|]]; simpl;
        by rewrite ?lookup_insert_ne.
    + destruct metaReply as [e|meta0]; simpl; [done|].
      rewrite lookup_insert_eq.
      destruct (getFrameSize _ _ _) as [e|[size|]]; simpl;
        by rewrite ?lookup_insert_ne.
Qed.

(** Every step keeps the requests well formed. *)
Lemma wf_step (w : World) e : wf_world w → wf_world (step w e).1.
Proof.
  intros Hw.
  destruct e as [task size0 chunkType mode frame first0 last0 metaReply
                |this p reply|id reply|cl frame|cl|taskID provider0]; simpl.
  - by apply wf_getFrame.
  - by apply wf_data_implementation.
  - by apply wf_getData_settled.
  - destruct (onDecodeAll cl frame w) as [[w' calls]|] eqn:Hd; simpl; [|done].
    eauto using wf_onDecodeAll.
  - destruct (rejectRequestAll cl w) as [[w' calls]|] eqn:Hd; simpl; [|done].
    eauto using wf_rejectRequestAll.
  - destruct (frameDataCache w !! taskID) as [c|] eqn:Hc; simpl; [|done].
    eapply wf_world_insert; [done| |done].
    apply wf_cache_provider. by apply Hw.
Qed.

Lemma wf_run events (w : World) : wf_world w → wf_world (run w events).1.
Proof.
  revert w. induction events as [|e events IH]; intros w Hw; simpl; [done|].
  pose proof (wf_step w e Hw) as Hstep.
  destruct (step w e) as [w1 calls1].
  specialize (IH w1 Hstep). by destruct (run w1 events).
Qed.

(** ** The branches of [data] *)

Lemma makeActiveRequest_started taskID reject r c (w : World) :
  makeActiveRequest taskID reject (set_cache taskID (set_activeChunkRequest (Some r) c) w)
  = (started taskID reject r c w, [GetData taskID (chunkNumber r)]).
Proof.
  unfold makeActiveRequest, started. rewrite lookup_set_cache_eq. simpl.
  by rewrite insert_insert_eq.
Qed.

Lemma rejectRequestAll_own taskID c active (w : World) :
  frameDataCache w !! taskID = Some c →
  activeChunkRequest c = Some active →
  wf_request taskID active →
  rejectRequestAll (rejectRequestAll_ref active) w
  = Some (set_cache taskID (set_activeChunkRequest None c) w,
          rejectEach (callbacks active)).
Proof.
  intros Hc Ha [_ ->]. unfold rejectRequestAll. simpl.
  rewrite Hc. simpl. rewrite Ha. by rewrite Z.eqb_refl.
Qed.

Section Branches.
Variables (this : FrameData) (p : nat) (w : World) (c : TaskDataCache).
Variables (k first last : Z).
Hypothesis Hc : frameDataCache w !! tid this = Some c.
Hypothesis Hchunk :
  chunkOf (number this) (startFrame this) (stopFrame this) (chunkSize c)
  = (k, first, last).

Lemma onFrameNull_idle :
  isChunkCached (provider c) first last = false →
  activeChunkRequest c = None →
  onFrameNull this p w
  = Some (started (tid this) p (newChunkRequest this k first last p) c w,
          [GetData (tid this) k]).
Proof.
  intros Hcached Ha. unfold onFrameNull. rewrite Hc. cbn [mbind option_bind].
  rewrite Hchunk, Hcached, Ha. simpl. by rewrite makeActiveRequest_started.
Qed.

Lemma onFrameNull_completed active :
  isChunkCached (provider c) first last = false →
  activeChunkRequest c = Some active →
  completed active = true →
  wf_request (tid this) active →
  onFrameNull this p w
  = Some (started (tid this) p (newChunkRequest this k first last p) c w,
          rejectEach (callbacks active) ++ [GetData (tid this) k]).
Proof.
  intros Hcached Ha Hdone Hwf. unfold onFrameNull. rewrite Hc.
  cbn [mbind option_bind]. rewrite Hchunk, Hcached, Ha. simpl. rewrite Hdone.
  rewrite (rejectRequestAll_own _ _ _ _ Hc Ha Hwf). cbn [mbind option_bind].
  rewrite lookup_set_cache_eq. cbn [mbind option_bind].
  change (set_activeChunkRequest ?v (set_activeChunkRequest None c))
    with (set_activeChunkRequest v c).
  replace (set_cache (tid this)
             (set_activeChunkRequest (Some (newChunkRequest this k first last p)) c)
             (set_cache (tid this) (set_activeChunkRequest None c) w))
    with (set_cache (tid this)
            (set_activeChunkRequest (Some (newChunkRequest this k first last p)) c) w).
  - by rewrite makeActiveRequest_started.
  - unfold set_cache. simpl. by rewrite insert_insert_eq.
Qed.

Lemma onFrameNull_same active :
  isChunkCached (provider c) first last = false →
  activeChunkRequest c = Some active →
  completed active = false →
  chunkNumber active = k →
  onFrameNull this p w
  = Some (set_cache (tid this)
            (set_activeChunkRequest
               (Some (set_callbacks
                        (callbacks active ++ [{| promise := p; frameNumber := number this |}])
                        active)) c) w,
          []).
Proof.
  intros Hcached Ha Hdone Hk. unfold onFrameNull. rewrite Hc.
  cbn [mbind option_bind]. rewrite Hchunk, Hcached, Ha. simpl. rewrite Hdone.
  by rewrite Hk, Z.eqb_refl.
Qed.

Lemma onFrameNull_other active :
  isChunkCached (provider c) first last = false →
  activeChunkRequest c = Some active →
  completed active = false →
  chunkNumber active ≠ k →
  onFrameNull this p w
  = Some (set_cache (tid this)
            (set_nextChunkRequest (Some (newChunkRequest this k first last p)) c) w,
          match nextChunkRequest c with
          | Some next => rejectEach (callbacks next)
          | None => []
          end).
Proof.
  intros Hcached Ha Hdone Hk. unfold onFrameNull. rewrite Hc.
  cbn [mbind option_bind]. rewrite Hchunk, Hcached, Ha. simpl. rewrite Hdone.
  by apply Z.eqb_neq in Hk as ->.
Qed.

Lemma onFrameNull_cached active :
  isChunkCached (provider c) first last = true →
  activeChunkRequest c = Some active →
  onFrameNull this p w
  = Some (set_cache (tid this)
            (set_provider
               (requestDecodeBlock (provider c) None first last
                  {| cl_tid := tid this; cl_chunkNumber := k |}
                  {| cl_tid := tid this; cl_chunkNumber := k |})
               (set_activeChunkRequest
                  (Some (set_callbacks
                           (callbacks active ++ [{| promise := p; frameNumber := number this |}])
                           active)) c)) w,
          []).
Proof.
  intros Hcached Ha. unfold onFrameNull. rewrite Hc.
  cbn [mbind option_bind]. by rewrite Hchunk, Hcached, Ha.
Qed.

Lemma onFrameNull_cached_idle :
  isChunkCached (provider c) first last = true →
  activeChunkRequest c = None →
  onFrameNull this p w = None.
Proof.
  intros Hcached Ha. unfold onFrameNull. rewrite Hc.
  cbn [mbind option_bind]. by rewrite Hchunk, Hcached, Ha.
Qed.

Lemma data_null :
  isNode = false → isBrowser = true →
  data_implementation this p (inr None) w
  = match onFrameNull this p w with
    | Some (w', calls) => (w', OnServerRequest p :: calls)
    | None => (w, [OnServerRequest p;
                   Reject p (ByError (asException undefinedAccess))])
    end.
Proof. intros Hn Hb. unfold data_implementation. by rewrite Hc, Hn, Hb. Qed.

End Branches.

(** ** The handlers of [getData] *)

Lemma getData_finally_promote taskID reject c next (w : World) :
  frameDataCache w !! taskID = Some c →
  nextChunkRequest c = Some next →
  getData_finally taskID reject w
  = (started taskID reject next (set_nextChunkRequest None c) w,
     match activeChunkRequest c with
     | Some active => rejectEach (callbacks active)
     | None => []
     end ++ [GetData taskID (chunkNumber next)]).
Proof.
  intros Hc Hn. unfold getData_finally. rewrite Hc, Hn.
  change (set_nextChunkRequest None (set_activeChunkRequest (Some next) c))
    with (set_activeChunkRequest (Some next) (set_nextChunkRequest None c)).
  by rewrite makeActiveRequest_started.
Qed.

Lemma getData_finally_idle taskID reject c (w : World) :
  frameDataCache w !! taskID = Some c →
  nextChunkRequest c = None →
  getData_finally taskID reject w = (w, []).
Proof. intros Hc Hn. unfold getData_finally. by rewrite Hc, Hn. Qed.

(** The state between the [then] or [catch] handler and the [finally]
    handler of a settled [getData] promise. *)
Lemma getData_settled_eq id f reply (w : World) :
  fetches w !! id = Some f →
  let w0 := {| frameDataCache := frameDataCache w;
               fetches := delete id (fetches w);
               fetchCount := fetchCount w |} in
  let handled :=
    match reply with
    | inr chunk =>
        match getData_then (fetch_tid f) chunk w0 with
        | Some w1 => (w1, [])
        | None => (w0, getData_catch (fetch_reject f) undefinedAccess)
        end
    | inl exception => (w0, getData_catch (fetch_reject f) exception)
    end in
  getData_settled id reply w
  = ((getData_finally (fetch_tid f) (fetch_reject f) handled.1).1,
     handled.2 ++ (getData_finally (fetch_tid f) (fetch_reject f) handled.1).2).
Proof.
  intros Hf w0 handled. unfold getData_settled. rewrite Hf.
  fold w0. fold handled. destruct handled as [w1 calls1]. simpl.
  by destruct (getData_finally _ _ _).
Qed.

(** ** Displaced requests *)

(** When a call of [data] puts a new request in the place of the completed
    active request or of the next request, it calls [onServerRequest], then
    rejects every callback of the request that goes, in their order, each
    with its own frame number, and then, for a new active request, calls
    [getData]; it calls nothing else. *)
Theorem data_displaces_with_frame_numbers this p c k first last (w : World) :
  isNode = false → isBrowser = true → wf_world w →
  frameDataCache w !! tid this = Some c →
  chunkOf (number this) (startFrame this) (stopFrame this) (chunkSize c)
  = (k, first, last) →
  isChunkCached (provider c) first last = false →
  let res := step w (CallData this p (inr None)) in
  (∀ active,
     activeChunkRequest c = Some active → completed active = true →
     res = (started (tid this) p (newChunkRequest this k first last p) c w,
            OnServerRequest p
            :: map (λ r, Reject (promise r) (ByFrameNumber (frameNumber r)))
                 (callbacks active)
            ++ [GetData (tid this) k]))
  ∧ (∀ active next,
       activeChunkRequest c = Some active → completed active = false →
       chunkNumber active ≠ k →
       nextChunkRequest c = Some next →
       res = (set_cache (tid this)
                (set_nextChunkRequest
                   (Some (newChunkRequest this k first last p)) c) w,
              OnServerRequest p
              :: map (λ r, Reject (promise r) (ByFrameNumber (frameNumber r)))
                   (callbacks next))).
Proof.
  intros Hnode Hbrowser Hw Hc Hchunk Hcached res. subst res. simpl.
  rewrite (data_null _ _ _ _ Hc Hnode Hbrowser). split.
  - intros active Ha Hdone. destruct (Hw _ _ Hc) as [Hwa _].
    by rewrite (onFrameNull_completed _ _ _ _ _ _ _ Hc Hchunk _ Hcached Ha Hdone
                  (Hwa _ Ha)).
  - intros active next Ha Hdone Hk Hn.
    by rewrite (onFrameNull_other _ _ _ _ _ _ _ Hc Hchunk _ Hcached Ha Hdone Hk), Hn.
Qed.

(** ** Calls of [getData] in a trace *)

Lemma getData_calls_app calls1 calls2 :
  getData_calls (calls1 ++ calls2) = getData_calls calls1 ++ getData_calls calls2.
Proof. apply omap_app. Qed.

Lemma getData_calls_rejectEach callbacks0 :
  getData_calls (rejectEach callbacks0) = [].
Proof. induction callbacks0 as [|r l IH]; [done|]. simpl. apply IH. Qed.

(** ** The chunk of a request *)

Lemma chunkOf_floor number0 first0 last0 size0 :
  0 ≤ number0 < 2 ^ 52 → 0 < size0 →
  number0 = 0 ∨ size0 ≤ 1000000 * number0 →
  chunkOf number0 first0 last0 size0
  = (number0 `div` size0,
     first0 `max` (number0 `div` size0 * size0),
     last0 `min` ((number0 `div` size0 + 1) * size0 - 1)).
Proof.
  intros Hn Hs Hq. unfold chunkOf. by rewrite parseInt_div_floor.
Qed.

(** The chunk of a request, where [parseInt] reads the quotient in positional
    notation and the arithmetic is exact.  For a call of [data] on a frame
    [0 <= f < 2^52] that the decoder does not hold, with a chunk size below
    [2^52] that is at least 1 and at most [1000000 * f] (or [f = 0]): the
    chunk number is [floor (f / chunkSize)], [start] is the
    larger of the task's start frame and [chunkNumber * chunkSize], and
    [stop] the smaller of the task's stop frame and
    [(chunkNumber + 1) * chunkSize - 1].  [isChunkCached] is asked about
    exactly these bounds, and the request object the call creates (as the
    active request, whose fetch it starts for that chunk number, or as the
    next request) carries them. *)
Theorem chunk_of_request this p c (w : World) :
  isNode = false → isBrowser = true → wf_world w →
  frameDataCache w !! tid this = Some c →
  0 ≤ number this < 2 ^ 52 → 0 < chunkSize c < 2 ^ 52 →
  number this = 0 ∨ chunkSize c ≤ 1000000 * number this →
  let k := number this `div` chunkSize c in
  let first := startFrame this `max` (k * chunkSize c) in
  let last := stopFrame this `min` ((k + 1) * chunkSize c - 1) in
  let res := data_implementation this p (inr None) w in
  chunkOf (number this) (startFrame this) (stopFrame this) (chunkSize c)
  = (k, first, last)
  ∧ (isChunkCached (provider c) first last = true → getData_calls res.2 = [])
  ∧ (isChunkCached (provider c) first last = false →
     (activeChunkRequest c = None
      ∨ (∃ active, activeChunkRequest c = Some active ∧ completed active = true) →
      ∃ c' r, frameDataCache res.1 !! tid this = Some c'
              ∧ activeChunkRequest c' = Some r
              ∧ chunkNumber r = k ∧ start r = first ∧ stop r = last
              ∧ callbacks r = [{| promise := p; frameNumber := number this |}]
              ∧ getData_calls res.2 = [(tid this, k)])
     ∧ (∀ active,
          activeChunkRequest c = Some active → completed active = false →
          chunkNumber active ≠ k →
          ∃ c' r, frameDataCache res.1 !! tid this = Some c'
                  ∧ nextChunkRequest c' = Some r
                  ∧ chunkNumber r = k ∧ start r = first ∧ stop r = last
                  ∧ callbacks r = [{| promise := p; frameNumber := number this |}]
                  ∧ getData_calls res.2 = [])).
Proof.
  intros Hnode Hbrowser Hw Hc Hnum Hsize Hq k first last res.
  pose proof (chunkOf_floor (number this) (startFrame this) (stopFrame this)
                (chunkSize c) Hnum (proj1 Hsize) Hq) as Hchunk.
  fold k in Hchunk. fold first last in Hchunk.
  split; [done|]. subst res. rewrite (data_null _ _ _ _ Hc Hnode Hbrowser).
  split; [|intros Huncached; split].
  - intros Hcached. destruct (activeChunkRequest c) as [active|] eqn:Ha.
    + by rewrite (onFrameNull_cached _ _ _ _ _ _ _ Hc Hchunk _ Hcached Ha).
    + by rewrite (onFrameNull_cached_idle _ _ _ _ _ _ _ Hc Hchunk Hcached Ha).
  - intros [Ha|(active & Ha & Hdone)].
    + rewrite (onFrameNull_idle _ _ _ _ _ _ _ Hc Hchunk Huncached Ha). simpl.
      rewrite lookup_insert_eq. by eexists _, _.
    + destruct (Hw _ _ Hc) as [Hwa _].
      rewrite (onFrameNull_completed _ _ _ _ _ _ _ Hc Hchunk _ Huncached Ha Hdone (Hwa _ Ha)).
      simpl. rewrite lookup_insert_eq. eexists _, _. repeat split; try done.
      by rewrite getData_calls_app, getData_calls_rejectEach.
  - intros active Ha Hdone Hk.
    rewrite (onFrameNull_other _ _ _ _ _ _ _ Hc Hchunk _ Huncached Ha Hdone Hk).
    simpl. rewrite lookup_insert_eq. eexists _, _. repeat split; try done.
    destruct (nextChunkRequest c); [apply getData_calls_rejectEach|done].
Qed.

(** ** Requests for the chunk that is being fetched *)

Lemma run_cons (w : World) e events :
  run w (e :: events)
  = ((run (step w e).1 events).1, (step w e).2 ++ (run (step w e).1 events).2).
Proof. simpl. destruct (step w e) as [w1 calls1]. simpl. by destruct (run w1 events). Qed.

Lemma run_app (w : World) events1 events2 :
  run w (events1 ++ events2)
  = ((run (run w events1).1 events2).1,
     (run w events1).2 ++ (run (run w events1).1 events2).2).
Proof.
  revert w. induction events1 as [|e events1 IH]; intros w.
  - simpl. by destruct (run w events2).
  - rewrite <- app_comm_cons, !run_cons, IH. simpl. by rewrite app_assoc.
Qed.

(** While the active request of a task is not completed, calls of [data]
    for its chunk that need the server only join its callbacks. *)
Lemma misses_join taskID k provider0 size0 requests :
  isNode = false → isBrowser = true →
  ∀ w : World,
  (∃ c active,
      frameDataCache w !! taskID = Some c
      ∧ provider c = provider0 ∧ chunkSize c = size0
      ∧ activeChunkRequest c = Some active
      ∧ completed active = false ∧ chunkNumber active = k) →
  (∀ this p k' first last,
      (this, p) ∈ requests →
      chunkOf (number this) (startFrame this) (stopFrame this) size0
      = (k', first, last) →
      tid this = taskID ∧ k' = k ∧ isChunkCached provider0 first last = false) →
  getData_calls (run w (misses requests)).2 = [].
Proof.
  intros Hnode Hbrowser.
  induction requests as [|[this p] requests IH]; intros w Hinv Hreq; [done|].
  destruct Hinv as (c & active & Hc & Hprov & Hsize & Ha & Hdone & Hk).
  destruct (chunkOf (number this) (startFrame this) (stopFrame this) size0)
    as [[k' first] last] eqn:Hchunk.
  destruct (Hreq this p k' first last) as (Htid & -> & Hcached);
    [apply elem_of_cons; by left|done|].
  subst taskID provider0 size0.
  change (misses ((this, p) :: requests))
    with (CallData this p (inr None) :: misses requests).
  rewrite run_cons. cbn [step fst snd].
  rewrite (data_null this p _ _ Hc Hnode Hbrowser).
  rewrite (onFrameNull_same _ _ _ _ _ _ _ Hc Hchunk _ Hcached Ha Hdone Hk).
  simpl. apply IH.
  - eexists _, _. rewrite lookup_set_cache_eq. by repeat split.
  - intros this' p' k' first' last' Hin. apply (Hreq this' p').
    apply elem_of_cons. by right.
Qed.

(** Requests for one chunk share a fetch.  When a call of [data] needs the
    server for a frame whose chunk number is that of the task's active
    request, and that request is not completed, the call is appended to the
    callbacks of the active request, [getData] is not called and the
    pending promises stay as they are.  Calls of [data] for frames of one
    chunk that the decoder does not hold, handled one after the other from
    a state in which the task has no active request or a completed one,
    call [getData] exactly once, for that chunk. *)
Theorem same_chunk_requests_coalesce taskID c (w : World) :
  isNode = false → isBrowser = true → wf_world w →
  frameDataCache w !! taskID = Some c → 0 < chunkSize c →
  (∀ this p active,
     tid this = taskID →
     activeChunkRequest c = Some active → completed active = false →
     Math_floor_div (number this) (chunkSize c) = chunkNumber active →
     let res := step w (CallData this p (inr None)) in
     (∃ c', frameDataCache res.1 !! taskID = Some c'
            ∧ activeChunkRequest c'
              = Some (set_callbacks
                        (callbacks active ++ [{| promise := p; frameNumber := number this |}])
                        active))
     ∧ getData_calls res.2 = []
     ∧ fetches res.1 = fetches w)
  ∧ (∀ requests k,
     requests ≠ [] →
     (activeChunkRequest c = None
      ∨ ∃ active, activeChunkRequest c = Some active ∧ completed active = true) →
     (∀ this p k' first last,
        (this, p) ∈ requests →
        chunkOf (number this) (startFrame this) (stopFrame this) (chunkSize c)
        = (k', first, last) →
        tid this = taskID ∧ k' = k ∧ isChunkCached (provider c) first last = false) →
     getData_calls (run w (misses requests)).2 = [(taskID, k)]).
Proof.
  intros Hnode Hbrowser Hw Hc Hsize. split.
  - intros this p active Htid Ha Hdone Hk res. subst res taskID. simpl.
    rewrite (data_null _ _ _ _ Hc Hnode Hbrowser).
    destruct (chunkOf (number this) (startFrame this) (stopFrame this) (chunkSize c))
      as [[k first] last] eqn:Hchunk.
    assert (chunkNumber active = k) as Hk'.
    { unfold chunkOf in Hchunk. by simplify_eq. }
    destruct (isChunkCached (provider c) first last) eqn:Hcached.
    + rewrite (onFrameNull_cached _ _ _ _ _ _ _ Hc Hchunk _ Hcached Ha). simpl.
      rewrite lookup_insert_eq. eauto.
    + rewrite (onFrameNull_same _ _ _ _ _ _ _ Hc Hchunk _ Hcached Ha Hdone Hk').
      simpl. rewrite lookup_insert_eq. eauto.
  - intros [|[this p] requests] k Hne Hidle Hreq; [done|]. clear Hne.
    destruct (chunkOf (number this) (startFrame this) (stopFrame this) (chunkSize c))
      as [[k' first] last] eqn:Hchunk.
    destruct (Hreq this p k' first last) as (Htid & -> & Hcached);
      [apply elem_of_cons; by left|done|].
    subst taskID.
    change (misses ((this, p) :: requests))
      with (CallData this p (inr None) :: misses requests).
    rewrite run_cons. cbn [step fst snd].
    rewrite (data_null this p _ _ Hc Hnode Hbrowser).
    assert (∃ calls,
      onFrameNull this p w
      = Some (started (tid this) p (newChunkRequest this k first last p) c w,
              calls ++ [GetData (tid this) k])
      ∧ getData_calls calls = []) as (calls & -> & Hcalls).
    { destruct Hidle as [Ha|(active & Ha & Hdone)].
      - exists []. by rewrite (onFrameNull_idle _ _ _ _ _ _ _ Hc Hchunk Hcached Ha).
      - destruct (Hw _ _ Hc) as [Hwa _]. exists (rejectEach (callbacks active)).
        rewrite (onFrameNull_completed _ _ _ _ _ _ _ Hc Hchunk _ Hcached Ha Hdone
                   (Hwa _ Ha)).
        split; [done|apply getData_calls_rejectEach]. }
    simpl. rewrite !getData_calls_app, Hcalls. simpl.
    rewrite (misses_join (tid this) k (provider c) (chunkSize c)); [done..| |].
    + eexists _, _. simpl. rewrite lookup_insert_eq. by repeat split.
    + intros this' p' k' first' last' Hin. apply (Hreq this' p').
      apply elem_of_cons. by right.
Qed.

(** ** Counting calls of continuations *)

Lemma settlements_app p calls1 calls2 :
  settlements p (calls1 ++ calls2) = (settlements p calls1 + settlements p calls2)%nat.
Proof. unfold settlements. by rewrite List.filter_app, length_app. Qed.

Lemma settlements_rejectEach p l :
  settlements p (rejectEach l) = length (filter (λ r, promise r = p) l).
Proof.
  induction l as [|r l IH]; [done|].
  change (rejectEach (r :: l))
    with ([Reject (promise r) (ByFrameNumber (frameNumber r))] ++ rejectEach l).
  rewrite settlements_app, IH, filter_cons. unfold settlements. simpl.
  destruct (decide (promise r = p)) as [Heq|Hne].
  - by rewrite bool_decide_eq_true_2.
  - by rewrite bool_decide_eq_false_2.
Qed.

Lemma spliceResolved_kept f l :
  (spliceResolved f l).1 = filter (λ r, frameNumber r ≠ f) l.
Proof.
  induction l as [|r l IH]; [done|]. simpl.
  destruct (spliceResolved f l) as [kept calls]. simpl in IH. subst kept.
  rewrite filter_cons.
  destruct (Z.eqb_spec (frameNumber r) f) as [Heq|Hne]; simpl.
  - by rewrite decide_False by (intros Hn; by apply Hn).
  - by rewrite decide_True.
Qed.

Lemma spliceResolved_settlements p f l :
  settlements p (spliceResolved f l).2
  = length (filter (λ r, promise r = p ∧ frameNumber r = f) l).
Proof.
  induction l as [|r l IH]; [done|]. simpl.
  destruct (spliceResolved f l) as [kept calls]. simpl in IH.
  rewrite filter_cons.
  destruct (Z.eqb_spec (frameNumber r) f) as [Heq|Hne]; simpl.
  - rewrite settlements_app, IH. unfold settlements. simpl.
    destruct (decide (promise r = p)) as [Hp|Hp].
    + rewrite bool_decide_eq_true_2 by done. rewrite decide_True by done.
      simpl. lia.
    + rewrite bool_decide_eq_false_2 by done.
      rewrite decide_False by (by intros [? ?]). simpl. lia.
  - rewrite IH. by rewrite decide_False by (by intros [? ?]).
Qed.



(** ** Progress reports of the decoder *)







(** ** A fetch and its decoding that succeed *)

Lemma getData_then_active taskID chunk c active (w : World) :
  frameDataCache w !! taskID = Some c →
  activeChunkRequest c = Some active →
  getData_then taskID chunk w
  = Some (set_cache taskID
            (set_provider
               (requestDecodeBlock (provider c) (Some chunk) (start active) (stop active)
                  (onDecodeAll_ref active) (rejectRequestAll_ref active))
               (set_activeChunkRequest (Some (set_completed true active)) c)) w).
Proof.
  intros Hc Ha. unfold getData_then. rewrite Hc. cbn [mbind option_bind].
  by rewrite Ha.
Qed.





(** ** One fetch at a time *)

Lemma getFrame_other taskID size0 chunkType mode frame first last metaReply
    (w : World) t :
  t ≠ taskID →
  frameDataCache (getFrame taskID size0 chunkType mode frame first last metaReply w).1 !! t
  = frameDataCache w !! t.
Proof.
  intros Hne. unfold getFrame.
  destruct (frameDataCache w !! taskID) as [c|] eqn:Hc; simpl.
  - rewrite Hc. destruct (getFrameSize _ _ _) as [e|[size|]]; simpl;
      by rewrite ?lookup_insert_ne.
  - destruct metaReply as [e|meta0]; simpl; [done|].
    rewrite lookup_insert_eq.
    destruct (getFrameSize _ _ _) as [e|[size|]]; simpl;
      by rewrite ?lookup_insert_ne.
Qed.

Lemma getFrame_fetches taskID size0 chunkType mode frame first last metaReply
    (w : World) :
  fetches (getFrame taskID size0 chunkType mode frame first last metaReply w).1
  = fetches w.
Proof.
  unfold getFrame.
  destruct (frameDataCache w !! taskID) as [c|] eqn:Hc; simpl.
  - rewrite Hc. by destruct (getFrameSize _ _ _) as [e|[size|]].
  - destruct metaReply as [e|meta0]; simpl; [done|].
    rewrite lookup_insert_eq.
    by destruct (getFrameSize _ _ _) as [e|[size|]].
Qed.


(** ** The waiting request *)



(** ** The chunk of a frame *)

Lemma chunk_of_span f size0 :
  0 < size0 → f `div` size0 * size0 ≤ f < (f `div` size0 + 1) * size0.
Proof.
  intros Hs. pose proof (Z.div_mod f size0 ltac:(lia)) as Hdm.
  pose proof (Z.mod_pos_bound f size0 Hs). nia.
Qed.

(** The chunk of a frame of the task.  For a frame [0 <= f < 2^52] between
    the task's start and stop frame, a chunk size of at least 1 and below
    [2^52], and a quotient that [parseInt] reads in positional notation, the
    bounds computed for the frame's chunk lie within the task's frames,
    contain [f], and span at most [chunkSize] frames. *)
Theorem chunk_contains_frame f first0 last0 size0 :
  0 < size0 < 2 ^ 52 → 0 ≤ f < 2 ^ 52 → f = 0 ∨ size0 ≤ 1000000 * f →
  first0 ≤ f ≤ last0 →
  let chunk := chunkOf f first0 last0 size0 in
  first0 ≤ chunk.1.2 ∧ chunk.1.2 ≤ f ≤ chunk.2 ∧ chunk.2 ≤ last0
  ∧ chunk.2 - chunk.1.2 < size0.
Proof.
  intros [Hs _] Hf Hq Hin chunk. subst chunk. rewrite chunkOf_floor by done.
  cbn [fst snd]. pose proof (chunk_of_span f size0 Hs). lia.
Qed.

(** For frames from 0 to below [2^52], a chunk size of at least 1 and below
    [2^52], and quotients that [parseInt] reads in positional notation:
    frames with the same chunk number get the same bounds.  Of two frames
    with different chunk numbers, the one with the smaller chunk number is
    the smaller frame, and its chunk stops before the chunk of the other one
    starts. *)
Theorem chunks_by_number f g first0 last0 size0 :
  0 < size0 < 2 ^ 52 →
  0 ≤ f < 2 ^ 52 → f = 0 ∨ size0 ≤ 1000000 * f →
  0 ≤ g < 2 ^ 52 → g = 0 ∨ size0 ≤ 1000000 * g →
  let cf := chunkOf f first0 last0 size0 in
  let cg := chunkOf g first0 last0 size0 in
  (cf.1.1 = cg.1.1 → cf = cg)
  ∧ (cf.1.1 < cg.1.1 → f < g ∧ cf.2 < cg.1.2).
Proof.
  intros [Hs _] Hf Hfq Hg Hgq cf cg. subst cf cg.
  rewrite !chunkOf_floor by done.
  cbn [fst snd]. split.
  - by intros ->.
  - intros Hlt. pose proof (chunk_of_span f size0 Hs).
    pose proof (chunk_of_span g size0 Hs). nia.
Qed.

(** ** [getFrame] and the tasks of the cache *)

(** [getFrame] adds its task to the cache exactly when the task is not there
    and the meta information arrives; no other task is added or removed.
    When the request for the meta information of a task that is not there
    fails, the call fails with that error as it is and leaves the state as
    it was. *)
Theorem getFrame_known_tasks taskID size0 chunkType mode frame first last
    metaReply (w : World) :
  let res := getFrame taskID size0 chunkType mode frame first last metaReply w in
  dom (frameDataCache res.1)
  = match frameDataCache w !! taskID, metaReply with
    | None, inr _ => {[taskID]} ∪ dom (frameDataCache w)
    | _, _ => dom (frameDataCache w)
    end
  ∧ match frameDataCache w !! taskID, metaReply with
    | None, inl e => res = (w, inl e)
    | _, _ => True
    end.
Proof.
  intros res. subst res. unfold getFrame.
  destruct (frameDataCache w !! taskID) as [c|] eqn:Hc.
  - rewrite Hc. split; [|by destruct metaReply].
    destruct (getFrameSize mode frame (meta c)) as [e|[size|]]; simpl;
      rewrite ?dom_insert_lookup_L by (by rewrite Hc); by destruct metaReply.
  - destruct metaReply as [e|meta0]; [done|]. rewrite lookup_set_cache_eq.
    split; [|done].
    destruct (getFrameSize mode frame _) as [e|[size|]]; simpl;
      by rewrite ?insert_insert_eq, dom_insert_L.
Qed.

Lemma getFrame_known_entry taskID size0 chunkType mode frame first last
    metaReply c (w : World) :
  frameDataCache w !! taskID = Some c →
  ∃ c', frameDataCache
          (getFrame taskID size0 chunkType mode frame first last metaReply w).1
        !! taskID = Some c'
        ∧ meta c' = meta c ∧ chunkSize c' = chunkSize c
        ∧ decodedBlocksCacheSize c' = decodedBlocksCacheSize c
        ∧ activeChunkRequest c' = activeChunkRequest c
        ∧ nextChunkRequest c' = nextChunkRequest c.
Proof.
  intros Hc. unfold getFrame. rewrite Hc. simpl. rewrite Hc.
  destruct (getFrameSize mode frame (meta c)) as [e|[size|]]; simpl;
    rewrite ?lookup_insert_eq; eauto 10.
Qed.

(** For a task that is in the cache, [getFrame] does not look at
    [chunkSize] and [chunkType] and asks the server nothing: its result and
    the state it leaves are the same for all values of them and for any
    reply about the meta information, and the entry keeps its meta
    information, chunk size, limit of decoded frames and both requests. *)
Theorem getFrame_first_call_decides taskID mode frame first last c (w : World) :
  frameDataCache w !! taskID = Some c →
  ∀ size0 chunkType metaReply,
    let res := getFrame taskID size0 chunkType mode frame first last metaReply w in
    (∀ size1 chunkType1 metaReply1,
       getFrame taskID size1 chunkType1 mode frame first last metaReply1 w = res)
    ∧ ∃ c', frameDataCache res.1 !! taskID = Some c'
            ∧ meta c' = meta c ∧ chunkSize c' = chunkSize c
            ∧ decodedBlocksCacheSize c' = decodedBlocksCacheSize c
            ∧ activeChunkRequest c' = activeChunkRequest c
            ∧ nextChunkRequest c' = nextChunkRequest c.
Proof.
  intros Hc size0 chunkType metaReply res. split.
  - intros size1 chunkType1 metaReply1. subst res. unfold getFrame. by rewrite Hc.
  - by apply getFrame_known_entry.
Qed.

(** For a task that is in the cache, [getFrame] returns a [FrameData] with
    the size of the first entry of the meta information in interpolation
    mode, whatever the frame number, and with the size of the frame's own
    entry in annotation mode; it carries the task, the frame and the start
    and stop frame given.  The call records the frame as the last one
    requested and hands the size to the decoder. *)
Theorem getFrame_descriptor taskID size0 chunkType mode frame first last
    metaReply c size (w : World) :
  frameDataCache w !! taskID = Some c →
  (mode = "interpolation" ∧ head (meta c) = Some size
   ∨ mode = "annotation" ∧ 0 ≤ frame ∧ meta c !! Z.to_nat frame = Some size) →
  getFrame taskID size0 chunkType mode frame first last metaReply w
  = (set_cache taskID
       (set_provider (setRenderSize (provider c) (width size) (height size))
          (set_lastFrameRequest frame c)) w,
     inr {| fd_width := width size; fd_height := height size; tid := taskID;
            number := frame; startFrame := first; stopFrame := last |}).
Proof.
  intros Hc Hsize. unfold getFrame. rewrite Hc. simpl. rewrite Hc.
  assert (getFrameSize mode frame (meta c) = inr (Some size)) as ->; [|done].
  unfold getFrameSize. destruct Hsize as [[-> Hhead]|(-> & Hpos & Hlook)]; simpl.
  - by rewrite Hhead.
  - apply lookup_lt_Some in Hlook as Hlt.
    destruct (Z.leb_spec (Z.of_nat (length (meta c))) frame); [lia|].
    unfold index. destruct (Z.ltb_spec frame 0); [lia|]. by rewrite Hlook.
Qed.

(** When the meta information has no size for the frame (no entry at all in
    interpolation mode, a negative frame number in annotation mode),
    [getFrame] fails with the [TypeError] of reading [size.width], not with
    an [ArgumentError], and has recorded the frame as the last one requested
    by then. *)
Theorem getFrame_missing_size taskID size0 chunkType mode frame first last
    metaReply c (w : World) :
  frameDataCache w !! taskID = Some c →
  (mode = "interpolation" ∧ meta c = []
   ∨ mode = "annotation" ∧ frame < 0) →
  getFrame taskID size0 chunkType mode frame first last metaReply w
  = (set_cache taskID (set_lastFrameRequest frame c) w, inl undefinedAccess).
Proof.
  intros Hc Hsize. unfold getFrame. rewrite Hc. simpl. rewrite Hc.
  assert (getFrameSize mode frame (meta c) = inr None) as ->; [|done].
  unfold getFrameSize. destruct Hsize as [[-> Hnil]|[-> Hneg]]; simpl.
  - by rewrite Hnil.
  - destruct (Z.leb_spec (Z.of_nat (length (meta c))) frame); [lia|].
    unfold index. by destruct (Z.ltb_spec frame 0); [|lia].
Qed.

(** ** Tasks stay *)

Lemma same_task_refl (c : TaskDataCache) : same_task c c.
Proof. by repeat split. Qed.

Lemma keeps_refl (w : World) : keeps w w.
Proof. intros t c Hc. exists c. split; [done|apply same_task_refl]. Qed.

Lemma keeps_trans (w1 w2 w3 : World) : keeps w1 w2 → keeps w2 w3 → keeps w1 w3.
Proof.
  intros H12 H23 t c Hc. destruct (H12 _ _ Hc) as (c2 & Hc2 & ? & ? & ?).
  destruct (H23 _ _ Hc2) as (c3 & Hc3 & ? & ? & ?).
  exists c3. repeat split; congruence.
Qed.

Lemma keeps_insert t c c' (w w' : World) :
  frameDataCache w !! t = Some c → same_task c c' →
  frameDataCache w' = <[t := c']> (frameDataCache w) →
  keeps w w'.
Proof.
  intros Hc Hsame Heq t0 c0 Hc0. rewrite Heq.
  destruct (decide (t = t0)) as [<-|Hne].
  - rewrite lookup_insert_eq. simplify_eq. eauto.
  - rewrite lookup_insert_ne by done. exists c0. split; [done|apply same_task_refl].
Qed.

Lemma keeps_same (w w' : World) :
  frameDataCache w' = frameDataCache w → keeps w w'.
Proof. intros Heq t c Hc. rewrite Heq. exists c. split; [done|apply same_task_refl]. Qed.

Lemma keeps_makeActiveRequest taskID reject (w : World) :
  keeps w (makeActiveRequest taskID reject w).1.
Proof.
  unfold makeActiveRequest.
  destruct (frameDataCache w !! taskID) as [c|] eqn:Hc; [|apply keeps_refl].
  destruct (activeChunkRequest c) as [a|]; [|apply keeps_refl].
  entry_changed keeps_insert Hc.
Qed.

Lemma keeps_rejectRequestAll cl (w w' : World) calls :
  rejectRequestAll cl w = Some (w', calls) → keeps w w'.
Proof.
  unfold rejectRequestAll.
  destruct (frameDataCache w !! cl_tid cl) as [c|] eqn:Hc; simpl; [|done].
  destruct (activeChunkRequest c) as [a|]; [|intros; simplify_eq; apply keeps_refl].
  destruct (cl_chunkNumber cl =? chunkNumber a);
    intros; simplify_eq; [|apply keeps_refl].
  entry_changed keeps_insert Hc.
Qed.

Lemma keeps_onDecodeAll cl frame (w w' : World) calls :
  onDecodeAll cl frame w = Some (w', calls) → keeps w w'.
Proof.
  unfold onDecodeAll.
  destruct (frameDataCache w !! cl_tid cl) as [c|] eqn:Hc; simpl; [|done].
  destruct (activeChunkRequest c) as [a|]; [|intros; simplify_eq; apply keeps_refl].
  destruct (cl_chunkNumber cl =? chunkNumber a);
    [|intros; simplify_eq; apply keeps_refl].
  destruct (spliceResolved frame (callbacks a)) as [kept calls'].
  intros; simplify_eq. entry_changed keeps_insert Hc.
Qed.

Lemma keeps_getData_finally taskID reject (w : World) :
  keeps w (getData_finally taskID reject w).1.
Proof.
  destruct (frameDataCache w !! taskID) as [c|] eqn:Hc;
    [|unfold getData_finally; rewrite Hc; apply keeps_refl].
  destruct (nextChunkRequest c) as [next|] eqn:Hn.
  - rewrite (getData_finally_promote _ _ _ _ _ Hc Hn). entry_changed keeps_insert Hc.
  - rewrite (getData_finally_idle _ _ _ _ Hc Hn). apply keeps_refl.
Qed.

Lemma keeps_getData_settled id reply (w : World) :
  keeps w (getData_settled id reply w).1.
Proof.
  destruct (fetches w !! id) as [f|] eqn:Hf;
    [|unfold getData_settled; rewrite Hf; apply keeps_refl].
  rewrite (getData_settled_eq _ _ _ _ Hf). cbv zeta. cbn [fst].
  eapply keeps_trans; [|apply keeps_getData_finally].
  destruct reply as [e|chunk]; [by apply keeps_same|].
  destruct (getData_then _ _ _) as [w1|] eqn:Hthen; [|by apply keeps_same].
  unfold getData_then in Hthen. simpl in Hthen.
  destruct (frameDataCache w !! fetch_tid f) as [c|] eqn:Hc; simpl in Hthen; [|done].
  destruct (activeChunkRequest c) as [a|]; simpl in Hthen; [|done].
  simplify_eq. entry_changed keeps_insert Hc.
Qed.

Lemma keeps_onFrameNull this p (w w' : World) calls :
  onFrameNull this p w = Some (w', calls) → keeps w w'.
Proof.
  unfold onFrameNull.
  destruct (frameDataCache w !! tid this) as [c|] eqn:Hc; [|done].
  cbn [mbind option_bind].
  destruct (chunkOf _ _ _ _) as [[k first] last].
  destruct (isChunkCached (provider c) first last); simpl.
  - destruct (activeChunkRequest c) as [a|]; simpl; [|done].
    intros; simplify_eq. entry_changed keeps_insert Hc.
  - destruct (activeChunkRequest c) as [a|] eqn:Ha.
    + destruct (completed a).
      * destruct (rejectRequestAll _ w) as [[w1 calls1]|] eqn:Hr; simpl; [|done].
        destruct (frameDataCache w1 !! tid this) as [c1|] eqn:Hc1; simpl; [|done].
        destruct (makeActiveRequest _ _ _) as [w2 calls2] eqn:Hm.
        apply (f_equal fst) in Hm. cbn [fst] in Hm.
        intros; simplify_eq.
        eapply keeps_trans; [by eapply keeps_rejectRequestAll|].
        eapply keeps_trans; [|apply keeps_makeActiveRequest].
        entry_changed keeps_insert Hc1.
      * destruct (chunkNumber a =? k); intros; simplify_eq; entry_changed keeps_insert Hc.
    + intros [= Hm]. apply (f_equal fst) in Hm. cbn [fst] in Hm. subst w'.
      eapply keeps_trans; [|apply keeps_makeActiveRequest].
      entry_changed keeps_insert Hc.
Qed.

Lemma keeps_getFrame taskID size0 chunkType mode frame first last metaReply
    (w : World) :
  keeps w (getFrame taskID size0 chunkType mode frame first last metaReply w).1.
Proof.
  intros t c Hc. destruct (decide (t = taskID)) as [->|Hne].
  - destruct (getFrame_known_entry taskID size0 chunkType mode frame first last
                metaReply c w Hc) as (c' & Hc' & ? & ? & ? & _).
    exists c'. by repeat split.
  - rewrite getFrame_other by done. exists c. split; [done|apply same_task_refl].
Qed.

Lemma keeps_step (w : World) e : keeps w (step w e).1.
Proof.
  destruct e as [task size0 chunkType mode frame first0 last0 metaReply
                |this p reply|id reply|cl frame|cl|taskID provider0]; simpl.
  - apply keeps_getFrame.
  - unfold data_implementation.
    destruct (frameDataCache w !! tid this); [|apply keeps_refl].
    destruct isNode; [apply keeps_refl|].
    destruct isBrowser; [|apply keeps_refl].
    destruct reply as [e|[frame|]]; [apply keeps_refl..|].
    destruct (onFrameNull this p w) as [[w' calls]|] eqn:Hnull; [|apply keeps_refl].
    by eapply keeps_onFrameNull.
  - apply keeps_getData_settled.
  - destruct (onDecodeAll cl frame w) as [[w' calls]|] eqn:Hd; simpl;
      [by eapply keeps_onDecodeAll|apply keeps_refl].
  - destruct (rejectRequestAll cl w) as [[w' calls]|] eqn:Hd; simpl;
      [by eapply keeps_rejectRequestAll|apply keeps_refl].
  - destruct (frameDataCache w !! taskID) as [c|] eqn:Hc; [|apply keeps_refl].
    entry_changed keeps_insert Hc.
Qed.

Lemma keeps_run events (w : World) : keeps w (run w events).1.
Proof.
  revert w. induction events as [|e events IH]; intros w; [apply keeps_refl|].
  rewrite run_cons. cbn [fst]. eapply keeps_trans; [apply keeps_step|apply IH].
Qed.

(** ** What the module calls *)

Lemma asException_instance exception :
  instanceof_Exception (asException exception) = true.
Proof. by destruct exception. Qed.

Lemma Forall_rejectEach (P : Action → Prop) l :
  (∀ p n, P (Reject p (ByFrameNumber n))) → Forall P (rejectEach l).
Proof. intros HP. unfold rejectEach. apply Forall_fmap, Forall_true. intros r. apply HP. Qed.

Lemma makeActiveRequest_calls taskID reject (w : World) :
  (makeActiveRequest taskID reject w).2 = []
  ∨ ∃ k, (makeActiveRequest taskID reject w).2 = [GetData taskID k].
Proof.
  unfold makeActiveRequest. destruct (frameDataCache w !! taskID) as [c|]; [|by left].
  destruct (activeChunkRequest c) as [a|]; [|by left]. right. by eexists.
Qed.

Lemma rejectRequestAll_calls cl (w w' : World) calls :
  rejectRequestAll cl w = Some (w', calls) →
  ∃ l, calls = rejectEach l.
Proof.
  unfold rejectRequestAll. destruct (frameDataCache w !! cl_tid cl) as [c|]; simpl; [|done].
  destruct (activeChunkRequest c) as [a|]; [|intros; simplify_eq; by exists []].
  destruct (cl_chunkNumber cl =? chunkNumber a); intros; simplify_eq;
    [by eexists|by exists []].
Qed.

(** What [onFrameNull] calls: rejections by frame number, then at most one
    [getData]. *)
Lemma onFrameNull_calls this p (w w' : World) calls :
  onFrameNull this p w = Some (w', calls) →
  ∃ l, calls = rejectEach l ∨ ∃ k, calls = rejectEach l ++ [GetData (tid this) k].
Proof.
  unfold onFrameNull.
  destruct (frameDataCache w !! tid this) as [c|] eqn:Hc; [|done].
  cbn [mbind option_bind].
  destruct (chunkOf _ _ _ _) as [[k first] last].
  destruct (isChunkCached (provider c) first last); simpl.
  - destruct (activeChunkRequest c) as [a|]; simpl; [|done].
    intros; simplify_eq. exists []. by left.
  - destruct (activeChunkRequest c) as [a|] eqn:Ha.
    + destruct (completed a).
      * destruct (rejectRequestAll _ w) as [[w1 calls1]|] eqn:Hr; simpl; [|done].
        destruct (frameDataCache w1 !! tid this) as [c1|] eqn:Hc1; simpl; [|done].
        rewrite makeActiveRequest_started.
        destruct (rejectRequestAll_calls _ _ _ _ Hr) as [l ->].
        intros; simplify_eq. exists l. right. by eexists.
      * destruct (chunkNumber a =? k); intros; simplify_eq.
        -- exists []. by left.
        -- destruct (nextChunkRequest c) as [next|]; [|exists []; by left].
           eexists. by left.
    + rewrite makeActiveRequest_started. intros; simplify_eq.
      exists []. right. by eexists.
Qed.

Lemma spliceResolved_calls f l :
  (spliceResolved f l).2
  = map (λ r, Resolve (promise r) (ProviderFrame f))
      (reverse (filter (λ r, frameNumber r = f) l)).
Proof.
  induction l as [|r l IH]; [done|]. simpl.
  destruct (spliceResolved f l) as [kept calls]. simpl in IH. subst calls.
  rewrite filter_cons.
  destruct (Z.eqb_spec (frameNumber r) f) as [Heq|Hne]; simpl.
  - rewrite decide_True by done. rewrite reverse_cons, map_app. simpl. by rewrite Heq.
  - by rewrite decide_False.
Qed.

(** ** Errors *)

Lemma no_foreign_error_step (w : World) e :
  (∀ this p reply, e = CallData this p reply →
     is_Some (frameDataCache w !! tid this)) →
  Forall no_foreign_error (step w e).2.
Proof.
  intros Hknown.
  destruct e as [task size0 chunkType mode frame first0 last0 metaReply
                |this p reply|id reply|cl frame|cl|taskID provider0]; simpl.
  - done.
  - destruct (Hknown this p reply eq_refl) as [c Hc].
    unfold data_implementation. rewrite Hc.
    destruct isNode; [by repeat constructor|].
    destruct isBrowser; [|done].
    destruct reply as [e|[frame|]].
    + repeat constructor. apply asException_instance.
    + by repeat constructor.
    + destruct (onFrameNull this p w) as [[w' calls]|] eqn:Hnull.
      * constructor; [done|].
        destruct (onFrameNull_calls _ _ _ _ _ Hnull) as (l & [->|[k ->]]).
        -- by apply Forall_rejectEach.
        -- apply Forall_app. split; [by apply Forall_rejectEach|by repeat constructor].
      * by repeat constructor.
  - destruct (fetches w !! id) as [f|] eqn:Hf;
      [|by unfold getData_settled; rewrite Hf].
    rewrite (getData_settled_eq _ _ _ _ Hf). cbv zeta. cbn [snd].
    apply Forall_app. split.
    + destruct reply as [e|chunk].
      * repeat constructor. apply asException_instance.
      * destruct (getData_then _ _ _); by repeat constructor.
    + unfold getData_finally.
      match goal with |- context [frameDataCache ?w1 !! _] =>
        destruct (frameDataCache w1 !! fetch_tid f) as [c|] end; [|done].
      destruct (nextChunkRequest c) as [next|]; [|done].
      change (set_nextChunkRequest None (set_activeChunkRequest (Some next) c))
        with (set_activeChunkRequest (Some next) (set_nextChunkRequest None c)).
      rewrite makeActiveRequest_started. cbn [snd].
      apply Forall_app. split; [|by repeat constructor].
      destruct (activeChunkRequest c); [by apply Forall_rejectEach|done].
  - unfold onDecodeAll.
    destruct (frameDataCache w !! cl_tid cl) as [c|]; simpl; [|done].
    destruct (activeChunkRequest c) as [a|]; [|done].
    destruct (cl_chunkNumber cl =? chunkNumber a); [|done].
    pose proof (spliceResolved_calls frame (callbacks a)) as Hcalls.
    destruct (spliceResolved frame (callbacks a)) as [kept calls].
    simpl in *. subst calls. apply Forall_fmap, Forall_true. done.
  - destruct (rejectRequestAll cl w) as [[w' calls]|] eqn:Hr; simpl; [|done].
    destruct (rejectRequestAll_calls _ _ _ _ Hr) as [l ->].
    by apply Forall_rejectEach.
  - by destruct (frameDataCache w !! taskID).
Qed.

(** ** The paths of [data] and of the handlers *)

Lemma no_foreign_error_run events (w : World) :
  (∀ this p reply, CallData this p reply ∈ events →
     is_Some (frameDataCache w !! tid this)) →
  Forall no_foreign_error (run w events).2.
Proof.
  revert w. induction events as [|e events IH]; intros w Hknown; [done|].
  rewrite run_cons. cbn [snd]. apply Forall_app. split.
  - apply no_foreign_error_step. intros this p reply ->.
    apply (Hknown this p reply). by left.
  - apply IH. intros this p reply Hin.
    destruct (Hknown this p reply) as [c Hc]; [by right|].
    destruct (keeps_step w e _ _ Hc) as (c' & Hc' & _). by exists c'.
Qed.

(** When every call of [data] in a run is on a task that is in the cache at
    the start, every error that a promise is rejected with in the run is an
    [Exception]: the errors of the decoder and of the server and the
    [TypeError]s of the module itself are wrapped. *)
Theorem errors_are_exceptions events (w : World) :
  (∀ this p reply, CallData this p reply ∈ events →
     is_Some (frameDataCache w !! tid this)) →
  ∀ p exception,
    Reject p (ByError exception) ∈ (run w events).2 →
    instanceof_Exception exception = true.
Proof.
  intros Hknown p exception Hin.
  pose proof (no_foreign_error_run events w Hknown) as Hall.
  rewrite Forall_forall in Hall. apply (Hall _ Hin).
Qed.

Lemma getFrame_returns taskID size0 chunkType mode frame first last metaReply
    this (w : World) :
  (getFrame taskID size0 chunkType mode frame first last metaReply w).2 = inr this →
  tid this = taskID ∧ number this = frame
  ∧ startFrame this = first ∧ stopFrame this = last
  ∧ is_Some (frameDataCache
               (getFrame taskID size0 chunkType mode frame first last metaReply w).1
             !! taskID).
Proof.
  unfold getFrame.
  destruct (frameDataCache w !! taskID) as [c|] eqn:Hc.
  - rewrite Hc. destruct (getFrameSize _ _ _) as [e|[size|]]; simpl; [done| |done].
    intros [= <-]. rewrite lookup_insert_eq. eauto.
  - destruct metaReply as [e|meta0]; [done|]. rewrite lookup_set_cache_eq.
    destruct (getFrameSize _ _ _) as [e|[size|]]; simpl; [done| |done].
    intros [= <-]. rewrite lookup_insert_eq. eauto.
Qed.

(** A [FrameData] that [getFrame] returned belongs to a task that is in the
    cache from then on, whatever happens in between; so a call of its [data]
    rejects with no error that is not an [Exception]. *)
Theorem descriptor_task_known taskID size0 chunkType mode frame first last
    metaReply this events p reply (w : World) :
  let got := getFrame taskID size0 chunkType mode frame first last metaReply w in
  got.2 = inr this →
  let w' := (run got.1 events).1 in
  is_Some (frameDataCache w' !! tid this)
  ∧ ∀ q exception,
      Reject q (ByError exception) ∈ (step w' (CallData this p reply)).2 →
      instanceof_Exception exception = true.
Proof.
  intros got Hgot w'. subst got.
  destruct (getFrame_returns _ _ _ _ _ _ _ _ _ _ Hgot) as (Htid & _ & _ & _ & [c Hc]).
  destruct (keeps_run events _ _ _ Hc) as (c' & Hc' & _).
  fold w' in Hc'. rewrite Htid. split; [by exists c'|].
  intros q exception Hin.
  assert (Forall no_foreign_error (step w' (CallData this p reply)).2) as Hall.
  { apply no_foreign_error_step. intros this0 p0 reply0 [= <- _ _].
    rewrite Htid. by exists c'. }
  rewrite Forall_forall in Hall. apply (Hall _ Hin).
Qed.

(** Under Node.js, and under a browser when the decoder's frame lookup
    answers with a frame or fails, a call of [data] on a task in the cache
    changes nothing and calls one continuation, of its own promise:
    [resolve] with ['Dummy data'] under Node.js, and under a browser
    [resolve] with the frame, or [reject] with the error as an
    [Exception]. *)
Theorem data_without_server this p reply (w : World) :
  is_Some (frameDataCache w !! tid this) →
  isNode = true ∨ isBrowser = true ∧ reply ≠ inr None →
  let res := step w (CallData this p reply) in
  res.1 = w
  ∧ ∃ a, res.2 = [a] ∧ settles p a = true
         ∧ (isNode = true → a = Resolve p DummyData)
         ∧ (isNode = false → ∀ frame, reply = inr (Some frame) →
              a = Resolve p (Decoded frame))
         ∧ (isNode = false → ∀ exception, reply = inl exception →
              a = Reject p (ByError (asException exception))).
Proof.
  intros [c Hc] Hcase res. subst res. simpl. unfold data_implementation. rewrite Hc.
  destruct isNode.
  - split; [done|]. eexists. split; [done|]. simpl.
    rewrite bool_decide_eq_true_2 by done. by repeat split.
  - destruct Hcase as [?|[-> Hreply]]; [done|].
    destruct reply as [e|[frame|]]; [| |done].
    + split; [done|]. eexists. split; [done|]. simpl.
      rewrite bool_decide_eq_true_2 by done. repeat split; try done.
      by intros _ exception [= ->].
    + split; [done|]. eexists. split; [done|]. simpl.
      rewrite bool_decide_eq_true_2 by done. repeat split; try done.
      by intros _ frame0 [= ->].
Qed.

(** Under a browser, when the decoder does not hold the frame, a call of
    [data] on a task in the cache first calls [onServerRequest]; after that
    it only rejects promises and calls [getData], for its own task and at
    most once.  It resolves nothing and calls [onServerRequest] once. *)
Theorem miss_notifies_once this p (w : World) :
  isNode = false → isBrowser = true →
  is_Some (frameDataCache w !! tid this) →
  let res := step w (CallData this p (inr None)) in
  ∃ calls, res.2 = OnServerRequest p :: calls
           ∧ Forall (turns_away_or_fetches (tid this)) calls
           ∧ (length (getData_calls calls) ≤ 1)%nat.
Proof.
  intros Hnode Hbrowser [c Hc] res. subst res. simpl.
  rewrite (data_null _ _ _ _ Hc Hnode Hbrowser).
  destruct (onFrameNull this p w) as [[w' calls]|] eqn:Hnull.
  - exists calls. split; [done|].
    destruct (onFrameNull_calls _ _ _ _ _ Hnull) as (l & [->|[k ->]]).
    + split; [by apply Forall_rejectEach|].
      rewrite getData_calls_rejectEach. simpl. lia.
    + split.
      * apply Forall_app. split; [by apply Forall_rejectEach|by repeat constructor].
      * rewrite getData_calls_app, getData_calls_rejectEach. simpl. lia.
  - eexists. split; [done|]. split; [by repeat constructor|]. simpl. lia.
Qed.

(** Under a browser, a call of [data] for a frame that the decoder does not
    hold either rejects its promise with a wrapped [TypeError] and leaves
    the state as it was, or leaves a callback with its promise and its frame
    number as the last one of the active or of the next request of its
    task. *)
Theorem miss_registers_waiter this p (w : World) :
  isNode = false → isBrowser = true →
  is_Some (frameDataCache w !! tid this) →
  let res := step w (CallData this p (inr None)) in
  res = (w, [OnServerRequest p; Reject p (ByError (asException undefinedAccess))])
  ∨ ∃ c' r,
      frameDataCache res.1 !! tid this = Some c'
      ∧ (activeChunkRequest c' = Some r ∨ nextChunkRequest c' = Some r)
      ∧ last (callbacks r) = Some {| promise := p; frameNumber := number this |}.
Proof.
  intros Hnode Hbrowser [c Hc] res. subst res. simpl.
  rewrite (data_null _ _ _ _ Hc Hnode Hbrowser).
  destruct (onFrameNull this p w) as [[w' calls]|] eqn:Hnull; [|by left].
  right. cbn [fst]. revert Hnull. unfold onFrameNull. rewrite Hc.
  cbn [mbind option_bind].
  destruct (chunkOf _ _ _ _) as [[k first] last0].
  destruct (isChunkCached (provider c) first last0); simpl.
  - destruct (activeChunkRequest c) as [a|]; simpl; [|done].
    intros; simplify_eq. simpl. rewrite lookup_insert_eq.
    eexists _, _. split; [done|]. split; [by left|]. simpl. apply last_snoc.
  - destruct (activeChunkRequest c) as [a|] eqn:Ha.
    + destruct (completed a).
      * destruct (rejectRequestAll _ w) as [[w1 calls1]|] eqn:Hr; simpl; [|done].
        destruct (frameDataCache w1 !! tid this) as [c1|] eqn:Hc1; simpl; [|done].
        rewrite makeActiveRequest_started.
        intros; simplify_eq. simpl. rewrite lookup_insert_eq.
        eexists _, _. split; [done|]. split; [by left|]. done.
      * destruct (chunkNumber a =? k); intros; simplify_eq; simpl;
          rewrite lookup_insert_eq.
        -- eexists _, _. split; [done|]. split; [by left|]. simpl. apply last_snoc.
        -- eexists _, _. split; [done|]. split; [by right|]. done.
    + rewrite makeActiveRequest_started. intros; simplify_eq. simpl.
      rewrite lookup_insert_eq.
      eexists _, _. split; [done|]. split; [by left|]. done.
Qed.

(** When the decoder reports the chunk of the wanted frame as cached and the
    task has an active request, the call of [data] appends its callback to
    that request, whichever chunk the request is for, and calls nothing but
    [onServerRequest].  When the decoder then reports the frame to the
    closure that the call handed to [requestDecodeBlock], the promise is
    resolved if the active request is for the chunk of the frame; if it is
    for another chunk, the report does nothing. *)
Theorem cached_chunk_waiter this p c active k first last (w : World) :
  isNode = false → isBrowser = true →
  frameDataCache w !! tid this = Some c →
  chunkOf (number this) (startFrame this) (stopFrame this) (chunkSize c)
  = (k, first, last) →
  isChunkCached (provider c) first last = true →
  activeChunkRequest c = Some active →
  let entry := {| promise := p; frameNumber := number this |} in
  let res := step w (CallData this p (inr None)) in
  let report := step res.1 (DecoderProgress {| cl_tid := tid this; cl_chunkNumber := k |}
                              (number this)) in
  res.2 = [OnServerRequest p]
  ∧ (∃ c', frameDataCache res.1 !! tid this = Some c'
           ∧ activeChunkRequest c'
             = Some (set_callbacks (callbacks active ++ [entry]) active)
           ∧ nextChunkRequest c' = nextChunkRequest c)
  ∧ (chunkNumber active = k →
     Resolve p (ProviderFrame (number this)) ∈ report.2)
  ∧ (chunkNumber active ≠ k → report = (res.1, [])).
Proof.
  intros Hnode Hbrowser Hc Hchunk Hcached Ha entry res report.
  subst report res. simpl.
  rewrite (data_null _ _ _ _ Hc Hnode Hbrowser).
  rewrite (onFrameNull_cached _ _ _ _ _ _ _ Hc Hchunk _ Hcached Ha).
  cbn [fst snd]. split; [done|]. split.
  { simpl. rewrite lookup_insert_eq. by eexists. }
  unfold onDecodeAll. rewrite lookup_set_cache_eq. cbn [mbind option_bind].
  cbn [activeChunkRequest set_provider set_activeChunkRequest chunkNumber
       set_callbacks cl_chunkNumber cl_tid callbacks].
  split.
  - intros ->. rewrite Z.eqb_refl.
    pose proof (spliceResolved_calls (number this) (callbacks active ++ [entry]))
      as Hcalls.
    destruct (spliceResolved _ _) as [kept calls]. simpl in Hcalls. simpl.
    subst calls. apply list_elem_of_fmap. exists entry. split; [done|].
    apply elem_of_reverse, list_elem_of_filter. split; [done|].
    apply elem_of_app. right. by apply list_elem_of_singleton.
  - intros Hne. destruct (Z.eqb_spec k (chunkNumber active)); [congruence|done].
Qed.


(** A payload that arrives when its task has no active request is dropped:
    the module does what it does for a fetch that failed with a [TypeError],
    and so calls the captured [reject] with that error, wrapped. *)
Theorem payload_without_active_request id f chunk (w : World) :
  fetches w !! id = Some f →
  (∀ c, frameDataCache w !! fetch_tid f = Some c → activeChunkRequest c = None) →
  step w (GetDataSettled id (inr chunk))
  = step w (GetDataSettled id (inl undefinedAccess))
  ∧ Reject (fetch_reject f) (ByError (asException undefinedAccess))
    ∈ (step w (GetDataSettled id (inr chunk))).2.
Proof.
  intros Hf Hidle. simpl.
  rewrite !(getData_settled_eq _ _ _ _ Hf). cbv zeta.
  assert (getData_then (fetch_tid f) chunk
            {| frameDataCache := frameDataCache w;
               fetches := delete id (fetches w);
               fetchCount := fetchCount w |} = None) as ->.
  { unfold getData_then. simpl.
    destruct (frameDataCache w !! fetch_tid f) as [c|] eqn:Hc; [|done].
    simpl. by rewrite (Hidle c). }
  split; [done|]. cbn [snd]. apply elem_of_app. left.
  by apply list_elem_of_singleton.
Qed.

(** When the decoder reports a frame to a closure for the chunk of the
    active request, all callbacks of the request for that frame are
    resolved, the one registered last first; the other callbacks stay, in
    their order; the active request is removed when no callback is left; the
    next request is not touched. *)
Theorem progress_resolves_latest_first cl frame c active (w : World) :
  frameDataCache w !! cl_tid cl = Some c →
  activeChunkRequest c = Some active →
  cl_chunkNumber cl = chunkNumber active →
  let res := step w (DecoderProgress cl frame) in
  let kept := filter (λ r, frameNumber r ≠ frame) (callbacks active) in
  res.2 = map (λ r, Resolve (promise r) (ProviderFrame frame))
            (reverse (filter (λ r, frameNumber r = frame) (callbacks active)))
  ∧ ∃ c', frameDataCache res.1 !! cl_tid cl = Some c'
          ∧ activeChunkRequest c'
            = match kept with
              | [] => None
              | _ => Some (set_callbacks kept active)
              end
          ∧ nextChunkRequest c' = nextChunkRequest c.
Proof.
  intros Hc Ha Hk res kept. subst res. simpl. unfold onDecodeAll.
  rewrite Hc. cbn [mbind option_bind]. rewrite Ha, Hk, Z.eqb_refl.
  pose proof (spliceResolved_calls frame (callbacks active)) as Hcalls.
  pose proof (spliceResolved_kept frame (callbacks active)) as Hkept.
  destruct (spliceResolved frame (callbacks active)) as [kept' calls].
  simpl in Hcalls, Hkept. fold kept in Hkept. subst kept' calls. simpl.
  split; [done|]. rewrite lookup_insert_eq. eexists. split; [done|].
  split; [|done]. simpl. by destruct kept.
Qed.

(** ** The closures of reachable states *)

(** In every state that the module reaches from its initial state, the two
    closures stored in a request object captured the task and the chunk
    number of that request. *)
Theorem closures_capture_own_request events :
  wf_world (run initial events).1.
Proof. apply wf_run, wf_initial. Qed.

(** ** Callbacks are neither lost nor used twice *)

Lemma waits_app p l1 l2 : waits p (l1 ++ l2) = (waits p l1 + waits p l2)%nat.
Proof. unfold waits. by rewrite filter_app, length_app. Qed.

Lemma waits_entry p q n :
  waits p [{| promise := q; frameNumber := n |}]
  = if bool_decide (q = p) then 1%nat else 0%nat.
Proof.
  unfold waits. rewrite filter_cons. simpl.
  case_bool_decide; [by rewrite decide_True|by rewrite decide_False].
Qed.

Lemma settlements_one p a :
  settlements p [a] = if settles p a then 1%nat else 0%nat.
Proof. unfold settlements. simpl. by destruct (settles p a). Qed.

Lemma settlements_cons p a calls :
  settlements p (a :: calls)
  = ((if settles p a then 1 else 0) + settlements p calls)%nat.
Proof. unfold settlements. simpl. by destruct (settles p a). Qed.

Lemma settlements_rejected p l : settlements p (rejectEach l) = waits p l.
Proof. apply settlements_rejectEach. Qed.

Lemma waits_splice p f l :
  (settlements p (spliceResolved f l).2 + waits p (spliceResolved f l).1
   = waits p l)%nat.
Proof.
  rewrite spliceResolved_settlements, spliceResolved_kept. unfold waits.
  induction l as [|r l IH]; [done|]. rewrite !filter_cons.
  destruct (decide (frameNumber r = f)) as [Hf|Hf].
  - rewrite (decide_False (P := frameNumber r ≠ f)) by (intros Hn; by apply Hn).
    destruct (decide (promise r = p)) as [Hp|Hp].
    + rewrite decide_True by done. simpl. lia.
    + rewrite decide_False by (by intros [? ?]). lia.
  - rewrite (decide_True (P := frameNumber r ≠ f)) by done.
    rewrite (decide_False (P := promise r = p ∧ frameNumber r = f)) by (by intros [? ?]).
    rewrite filter_cons. destruct (decide (promise r = p)); simpl; lia.
Qed.

Lemma holders_insert_new p t c' (w w' : World) :
  frameDataCache w !! t = None →
  frameDataCache w' = <[t := c']> (frameDataCache w) →
  holders p w' = (holders p w + held p c')%nat.
Proof.
  intros Hc Heq. unfold holders. rewrite Heq.
  rewrite map_fold_insert_L; [lia|intros; lia|done].
Qed.

Lemma holders_insert p t c c' (w w' : World) :
  frameDataCache w !! t = Some c →
  frameDataCache w' = <[t := c']> (frameDataCache w) →
  (holders p w' + held p c = holders p w + held p c')%nat.
Proof.
  intros Hc Heq. unfold holders. rewrite Heq.
  rewrite <- insert_delete_eq.
  rewrite map_fold_insert_L; [|intros; lia|apply lookup_delete_eq].
  rewrite (map_fold_delete_L _ _ t c (frameDataCache w)); [lia|intros; lia|done].
Qed.

(** A change of one entry that moves callbacks between the entry and the
    trace. *)
Lemma conserved_insert p t c c' (w w' : World) (settled extra : nat) :
  frameDataCache w !! t = Some c →
  frameDataCache w' = <[t := c']> (frameDataCache w) →
  (settled + held p c' = held p c + extra)%nat →
  (settled + holders p w' = holders p w + extra)%nat.
Proof.
  intros Hc Heq Hheld. pose proof (holders_insert p t c c' w w' Hc Heq). lia.
Qed.

Lemma holders_insert_same p t c c' (w w' : World) :
  frameDataCache w !! t = Some c →
  frameDataCache w' = <[t := c']> (frameDataCache w) →
  held p c' = held p c →
  holders p w' = holders p w.
Proof.
  intros Hc Heq Hheld. pose proof (holders_insert p t c c' w w' Hc Heq). lia.
Qed.

Lemma conserved_getFrame p taskID size0 chunkType mode frame first last metaReply
    (w : World) :
  holders p (getFrame taskID size0 chunkType mode frame first last metaReply w).1
  = holders p w.
Proof.
  unfold getFrame. destruct (frameDataCache w !! taskID) as [c|] eqn:Hc.
  - rewrite Hc.
    destruct (getFrameSize mode frame (meta c)) as [e|[size|]]; cbn [fst]; [done|..].
    + by eapply (holders_insert_same p taskID c).
    + by eapply (holders_insert_same p taskID c).
  - destruct metaReply as [e|meta0]; [done|]. rewrite lookup_set_cache_eq.
    destruct (getFrameSize mode frame _) as [e|[size|]]; cbn [fst].
    all: erewrite (holders_insert_new p taskID);
      [|exact Hc|simpl; rewrite ?insert_insert_eq; reflexivity];
      unfold held; simpl; lia.
Qed.

Lemma conserved_onFrameNull p this q (w w' : World) calls :
  wf_world w →
  onFrameNull this q w = Some (w', calls) →
  (settlements p calls + holders p w'
   = holders p w + if bool_decide (q = p) then 1 else 0)%nat.
Proof.
  intros Hw Hnull.
  destruct (frameDataCache w !! tid this) as [c|] eqn:Hc;
    [|by unfold onFrameNull in Hnull; rewrite Hc in Hnull].
  destruct (chunkOf (number this) (startFrame this) (stopFrame this) (chunkSize c))
    as [[k first] last] eqn:Hchunk.
  destruct (isChunkCached (provider c) first last) eqn:Hcached.
  - destruct (activeChunkRequest c) as [a|] eqn:Ha.
    + rewrite (onFrameNull_cached _ _ _ _ _ _ _ Hc Hchunk _ Hcached Ha) in Hnull.
      simplify_eq. eapply (conserved_insert p (tid this) c); [exact Hc|reflexivity|].
      unfold held. simpl. rewrite Ha. simpl. rewrite waits_app, waits_entry.
      change (settlements p []) with 0%nat. lia.
    + by rewrite (onFrameNull_cached_idle _ _ _ _ _ _ _ Hc Hchunk Hcached Ha) in Hnull.
  - destruct (activeChunkRequest c) as [a|] eqn:Ha.
    + destruct (completed a) eqn:Hdone.
      * destruct (Hw _ _ Hc) as [Hwa _].
        rewrite (onFrameNull_completed _ _ _ _ _ _ _ Hc Hchunk _ Hcached Ha Hdone
                   (Hwa _ Ha)) in Hnull.
        simplify_eq. eapply (conserved_insert p (tid this) c); [exact Hc|reflexivity|].
        unfold held. simpl. rewrite Ha. simpl.
        rewrite settlements_app, settlements_rejected, waits_entry.
        change (settlements p [GetData (tid this) k]) with 0%nat. lia.
      * destruct (decide (chunkNumber a = k)) as [Hk|Hk].
        -- rewrite (onFrameNull_same _ _ _ _ _ _ _ Hc Hchunk _ Hcached Ha Hdone Hk)
             in Hnull.
           simplify_eq. eapply (conserved_insert p (tid this) c); [exact Hc|reflexivity|].
           unfold held. simpl. rewrite Ha. simpl. rewrite waits_app, waits_entry.
           change (settlements p []) with 0%nat. lia.
        -- rewrite (onFrameNull_other _ _ _ _ _ _ _ Hc Hchunk _ Hcached Ha Hdone Hk)
             in Hnull.
           simplify_eq. eapply (conserved_insert p (tid this) c); [exact Hc|reflexivity|].
           unfold held. simpl. rewrite Ha. simpl. rewrite waits_entry.
           destruct (nextChunkRequest c) as [next|]; simpl.
           ++ rewrite settlements_rejected. lia.
           ++ change (settlements p []) with 0%nat. lia.
    + rewrite (onFrameNull_idle _ _ _ _ _ _ _ Hc Hchunk Hcached Ha) in Hnull.
      simplify_eq. eapply (conserved_insert p (tid this) c); [exact Hc|reflexivity|].
      unfold held. simpl. rewrite Ha. simpl. rewrite waits_entry.
      change (settlements p [GetData (tid this) k]) with 0%nat. lia.
Qed.

Lemma conserved_data p this q reply (w : World) :
  isNode = true ∨ isBrowser = true →
  wf_world w →
  let res := data_implementation this q reply w in
  (settlements p res.2 + holders p res.1
   = holders p w + if bool_decide (q = p) then 1 else 0)%nat.
Proof.
  intros Henv Hw res. subst res. unfold data_implementation.
  destruct (frameDataCache w !! tid this) as [c|] eqn:Hc.
  - destruct isNode; [cbn [fst snd]; rewrite settlements_one; simpl; lia|].
    destruct Henv as [?| ->]; [done|].
    destruct reply as [e|[frame|]];
      [cbn [fst snd]; rewrite settlements_one; simpl; lia..|].
    destruct (onFrameNull this q w) as [[w' calls]|] eqn:Hnull; cbn [fst snd].
    + rewrite settlements_cons. simpl. by apply conserved_onFrameNull with this.
    + rewrite !settlements_cons. simpl. change (settlements p []) with 0%nat. lia.
  - cbn [fst snd]. rewrite settlements_one. simpl. lia.
Qed.

Lemma conserved_onDecodeAll p cl frame (w : World) :
  let res := default (w, []) (onDecodeAll cl frame w) in
  (settlements p res.2 + holders p res.1 = holders p w)%nat.
Proof.
  intros res. subst res. unfold onDecodeAll.
  destruct (frameDataCache w !! cl_tid cl) as [c|] eqn:Hc; simpl; [|done].
  destruct (activeChunkRequest c) as [a|] eqn:Ha; [|done].
  destruct (cl_chunkNumber cl =? chunkNumber a); [|done].
  pose proof (waits_splice p frame (callbacks a)) as Hsplice.
  destruct (spliceResolved frame (callbacks a)) as [kept calls].
  cbn [fst snd] in *. rewrite <- (Nat.add_0_r (holders p w)).
  eapply (conserved_insert p (cl_tid cl) c); [exact Hc|reflexivity|].
  unfold held.
  cbn [activeChunkRequest nextChunkRequest set_activeChunkRequest]. rewrite Ha.
  destruct kept as [|r kept];
    cbn [length Nat.eqb from_option callbacks set_callbacks id fst snd].
  - change (waits p []) with 0%nat in Hsplice. lia.
  - lia.
Qed.

Lemma conserved_rejectRequestAll p cl (w : World) :
  let res := default (w, []) (rejectRequestAll cl w) in
  (settlements p res.2 + holders p res.1 = holders p w)%nat.
Proof.
  intros res. subst res. unfold rejectRequestAll.
  destruct (frameDataCache w !! cl_tid cl) as [c|] eqn:Hc; simpl; [|done].
  destruct (activeChunkRequest c) as [a|] eqn:Ha; [|done].
  destruct (cl_chunkNumber cl =? chunkNumber a); [|done]. simpl.
  rewrite settlements_rejected, <- (Nat.add_0_r (holders p w)).
  eapply (conserved_insert p (cl_tid cl) c); [exact Hc|reflexivity|].
  unfold held. simpl. rewrite Ha. simpl. lia.
Qed.

(** ** After a fetch that failed *)











(** ** Under Node.js *)

Lemma at_rest_initial : at_rest initial.
Proof.
  split; [done|]. intros t c Hc. simpl in Hc. by rewrite lookup_empty in Hc.
Qed.

Lemma at_rest_step (w : World) e :
  isNode = true → at_rest w →
  at_rest (step w e).1 ∧ Forall dummy_or_unknown (step w e).2.
Proof.
  intros Hnode [Hf Hrest].
  destruct e as [task size0 chunkType mode frame first0 last0 metaReply
                |this p reply|id reply|cl frame|cl|taskID provider0]; simpl.
  - split; [|done]. split; [by rewrite getFrame_fetches|].
    intros t c' Hc'. destruct (decide (t = task)) as [->|Hne].
    + destruct (getFrame_entry _ _ _ _ _ _ _ _ _ _ Hc')
        as (c & [Hc|(_ & meta0 & _ & ->)] & _ & _ & _ & -> & ->); [|done].
      by apply (Hrest task).
    + rewrite getFrame_other in Hc' by done. by apply (Hrest t).
  - unfold data_implementation. rewrite Hnode.
    destruct (frameDataCache w !! tid this);
      (split; [by split|by apply Forall_singleton]).
  - unfold getData_settled. rewrite Hf, lookup_empty. by split.
  - unfold onDecodeAll.
    destruct (frameDataCache w !! cl_tid cl) as [c|] eqn:Hc; simpl; [|by split].
    destruct (Hrest _ _ Hc) as [-> _]. by split.
  - unfold rejectRequestAll.
    destruct (frameDataCache w !! cl_tid cl) as [c|] eqn:Hc; simpl; [|by split].
    destruct (Hrest _ _ Hc) as [-> _]. by split.
  - destruct (frameDataCache w !! taskID) as [c|] eqn:Hc; [|by split].
    split; [|done]. split; [done|]. intros t c' Hc'. simpl in Hc'.
    destruct (decide (taskID = t)) as [<-|Hne].
    + rewrite lookup_insert_eq in Hc'. simplify_eq. simpl. by apply (Hrest taskID).
    + rewrite lookup_insert_ne in Hc' by done. by apply (Hrest t).
Qed.

Lemma at_rest_run events (w : World) :
  isNode = true → at_rest w →
  at_rest (run w events).1 ∧ Forall dummy_or_unknown (run w events).2.
Proof.
  intros Hnode. revert w. induction events as [|e events IH]; intros w Hrest.
  - by split.
  - rewrite run_cons. cbn [fst snd].
    destruct (at_rest_step w e Hnode Hrest) as [Hrest1 Hcalls1].
    destruct (IH _ Hrest1) as [Hrest2 Hcalls2].
    split; [done|]. apply Forall_app. by split.
Qed.

(** Under Node.js the module never asks the server for a chunk.  In every
    run from the initial state no request object is created, no [getData]
    promise is pending, and every call the module makes resolves the
    promise of a call of [data] with ['Dummy data'], or rejects it with the
    [TypeError] of a task that is not in the cache. *)
Theorem node_never_fetches events :
  isNode = true →
  let res := run initial events in
  at_rest res.1
  ∧ Forall dummy_or_unknown res.2
  ∧ getData_calls res.2 = [].
Proof.
  intros Hnode res. subst res.
  destruct (at_rest_run events initial Hnode at_rest_initial) as [Hrest Hcalls].
  split; [done|]. split; [done|].
  induction Hcalls as [|a calls Ha Hcalls IH]; [done|].
  destruct a as [p|t k|p v|p r]; simpl in *; done.
Qed.

(** ** A decoding that fails *)

(** When the decoder calls the [rejectRequestAll] closure for the chunk of
    the active request, every callback of that request is rejected with its
    own frame number, in the order of registration, and the active request
    is removed.  Nothing else is called, and a next request stays where it
    is: its fetch is not started. *)
Theorem decoder_failure_rejects_waiters cl c active (w : World) :
  frameDataCache w !! cl_tid cl = Some c →
  activeChunkRequest c = Some active →
  cl_chunkNumber cl = chunkNumber active →
  let res := step w (DecoderFailure cl) in
  res.2 = map (λ r, Reject (promise r) (ByFrameNumber (frameNumber r)))
            (callbacks active)
  ∧ fetches res.1 = fetches w
  ∧ ∃ c', frameDataCache res.1 !! cl_tid cl = Some c'
          ∧ activeChunkRequest c' = None
          ∧ nextChunkRequest c' = nextChunkRequest c.
Proof.
  intros Hc Ha Hk res. subst res. simpl. unfold rejectRequestAll.
  rewrite Hc. cbn [mbind option_bind]. rewrite Ha, Hk, Z.eqb_refl. simpl.
  split; [done|]. split; [done|]. rewrite lookup_insert_eq. by eexists.
Qed.

(** ** Handlers one at a time *)

Lemma play_cons (w : World) r schedule :
  play w (r :: schedule)
  = ((play (react w r).1 schedule).1,
     (react w r).2 ++ (play (react w r).1 schedule).2).
Proof.
  simpl. destruct (react w r) as [w1 calls1]. simpl. by destruct (play w1 schedule).
Qed.

Lemma play_one (w : World) r : play w [r] = react w r.
Proof. rewrite play_cons. simpl. rewrite app_nil_r. by destruct (react w r). Qed.

Lemma getFrame_as_reactions taskID size0 chunkType mode frame first last
    metaReply (w : World) :
  getFrame taskID size0 chunkType mode frame first last metaReply w
  = match frameDataCache w !! taskID with
    | Some _ => getFrame_finish taskID mode frame first last w
    | None => getFrame_resume taskID size0 chunkType mode frame first last metaReply w
    end.
Proof.
  unfold getFrame, getFrame_resume, getFrame_finish.
  destruct (frameDataCache w !! taskID) as [c|] eqn:Hc.
  - rewrite Hc. by destruct (getFrameSize mode frame (meta c)) as [e|[size|]].
  - destruct metaReply as [e|meta0]; [done|]. rewrite lookup_set_cache_eq.
    by destruct (getFrameSize mode frame _) as [e|[size|]].
Qed.

(** An event of [step] is its handlers run with nothing in between. *)
Lemma step_as_reactions (w : World) e : step w e = play w (reactions_of w e).
Proof.
  destruct e as [task size0 chunkType mode frame first0 last0 metaReply
                |this p reply|id reply|cl frame|cl|taskID provider0];
    cbn [step reactions_of].
  - rewrite getFrame_as_reactions.
    destruct (frameDataCache w !! task) as [c|] eqn:Hc.
    + rewrite play_one. simpl. by rewrite Hc.
    + rewrite play_cons. cbn [react]. rewrite Hc. cbn [fst snd].
      by rewrite play_one.
  - by rewrite play_one.
  - destruct (fetches w !! id) as [f|] eqn:Hf.
    + rewrite (getData_settled_eq _ _ _ _ Hf). cbv zeta.
      destruct reply as [e|chunk].
      * rewrite play_cons, play_one. cbn [react]. rewrite Hf. cbn [fst snd].
        rewrite Hf. by destruct (getData_finally _ _ _).
      * set (w0 := {| frameDataCache := frameDataCache w;
                      fetches := delete id (fetches w);
                      fetchCount := fetchCount w |}).
        destruct (getData_then (fetch_tid f) chunk w) as [w1|] eqn:Hw1.
        -- assert (∃ c a, frameDataCache w !! fetch_tid f = Some c
                          ∧ activeChunkRequest c = Some a) as (c & a & Hc & Ha).
           { unfold getData_then in Hw1.
             destruct (frameDataCache w !! fetch_tid f) as [c|] eqn:Hc;
               simpl in Hw1; [|done].
             destruct (activeChunkRequest c) as [a|] eqn:Ha; simpl in Hw1; [|done].
             by exists c, a. }
           rewrite (getData_then_active _ chunk c a w Hc Ha) in Hw1.
           rewrite (getData_then_active _ chunk c a w0 Hc Ha).
           injection Hw1 as <-.
           rewrite play_cons, play_one. cbn [react]. rewrite Hf.
           rewrite (getData_then_active _ chunk c a w Hc Ha).
           cbn [default from_option Datatypes.id fst snd fetches set_cache]. rewrite Hf.
           reflexivity.
        -- assert (getData_then (fetch_tid f) chunk w0 = None) as ->.
           { unfold getData_then in *. subst w0. simpl.
             destruct (frameDataCache w !! fetch_tid f) as [c|]; simpl in *; [|done].
             by destruct (activeChunkRequest c). }
           rewrite play_cons. cbn [react]. rewrite Hf, Hw1.
           cbn [default from_option fst snd].
           rewrite play_cons. cbn [react]. rewrite Hf. cbn [fst snd].
           rewrite play_one. cbn [react]. rewrite Hf.
           by destruct (getData_finally _ _ _).
    + unfold getData_settled. rewrite Hf. destruct reply as [e|chunk].
      * rewrite play_cons, play_one. cbn [react]. rewrite Hf. cbn [fst snd].
        by rewrite Hf.
      * done.
  - by rewrite play_one.
  - by rewrite play_one.
  - by rewrite play_one.
Qed.

Lemma wf_getFrame_finish taskID mode frame first last (w : World) :
  wf_world w → wf_world (getFrame_finish taskID mode frame first last w).1.
Proof.
  intros Hw. unfold getFrame_finish.
  destruct (frameDataCache w !! taskID) as [c|] eqn:Hc; [|done].
  destruct (getFrameSize mode frame (meta c)) as [e|[size|]]; [done|..]; cbn [fst].
  - eapply (wf_world_insert taskID); [exact Hw| |reflexivity].
    apply wf_cache_provider, wf_cache_lastFrameRequest. by apply Hw.
  - eapply (wf_world_insert taskID); [exact Hw| |reflexivity].
    apply wf_cache_lastFrameRequest. by apply Hw.
Qed.

Lemma wf_react (w : World) r : wf_world w → wf_world (react w r).1.
Proof.
  intros Hw.
  destruct r as [task size0 chunkType mode frame first0 last0
                |task size0 chunkType mode frame first0 last0 metaReply
                |this p reply|id chunk|id exception|id|cl frame|cl
                |task provider0]; cbn [react].
  - destruct (frameDataCache w !! task); [|done]. by apply wf_getFrame_finish.
  - cbn [fst]. unfold getFrame_resume. destruct metaReply as [e|meta0]; [done|].
    apply wf_getFrame_finish.
    eapply (wf_world_insert task); [exact Hw| |reflexivity].
    split; intros r Hr; discriminate Hr.
  - by apply wf_data_implementation.
  - destruct (fetches w !! id) as [f|]; [|done]. cbn [fst].
    destruct (getData_then (fetch_tid f) chunk w) as [w1|] eqn:Hthen; [|done].
    by apply (wf_getData_then _ _ _ _ Hw Hthen).
  - by destruct (fetches w !! id).
  - destruct (fetches w !! id) as [f|]; [|done].
    apply wf_getData_finally. by apply (wf_world_same w).
  - by apply (wf_step w (DecoderProgress cl frame)).
  - by apply (wf_step w (DecoderFailure cl)).
  - by apply (wf_step w (DecoderInternal task provider0)).
Qed.


(** ** The waiting request, handler by handler *)

Lemma getFrame_finish_other taskID mode frame first last (w : World) t :
  t ≠ taskID →
  frameDataCache (getFrame_finish taskID mode frame first last w).1 !! t
  = frameDataCache w !! t.
Proof.
  intros Hne. unfold getFrame_finish.
  destruct (frameDataCache w !! taskID) as [c|]; [|done].
  destruct (getFrameSize mode frame (meta c)) as [e|[size|]]; simpl;
    by rewrite ?lookup_insert_ne.
Qed.

Lemma getFrame_finish_known taskID size0 chunkType mode frame first last
    metaReply c (w : World) :
  frameDataCache w !! taskID = Some c →
  getFrame_finish taskID mode frame first last w
  = getFrame taskID size0 chunkType mode frame first last metaReply w.
Proof. intros Hc. by rewrite getFrame_as_reactions, Hc. Qed.

Lemma getData_then_next t chunk (w w' : World) taskID c :
  getData_then t chunk w = Some w' →
  frameDataCache w !! taskID = Some c →
  ∃ c', frameDataCache w' !! taskID = Some c'
        ∧ nextChunkRequest c' = nextChunkRequest c
        ∧ meta c' = meta c ∧ chunkSize c' = chunkSize c
        ∧ decodedBlocksCacheSize c' = decodedBlocksCacheSize c.
Proof.
  intros Hthen Hc. unfold getData_then in Hthen.
  destruct (frameDataCache w !! t) as [c0|] eqn:Hc0; simpl in Hthen; [|done].
  destruct (activeChunkRequest c0) as [a|]; simpl in Hthen; [|done].
  simplify_eq. destruct (decide (t = taskID)) as [->|Hne].
  - rewrite lookup_set_cache_eq. simplify_eq. by eexists.
  - rewrite lookup_set_cache_ne by done. by exists c.
Qed.



(** ** The entry of a task, handler by handler *)

Lemma kept_react taskID c (w : World) r :
  frameDataCache w !! taskID = Some c →
  resumes taskID r = false →
  ∃ c', frameDataCache (react w r).1 !! taskID = Some c' ∧ same_task c c'.
Proof.
  intros Hc Hres.
  assert (∃ c', frameDataCache w !! taskID = Some c' ∧ same_task c c') as Hsame.
  { exists c. split; [done|apply same_task_refl]. }
  destruct r as [task size0 chunkType mode frame first0 last0
                |task size0 chunkType mode frame first0 last0 metaReply
                |this p reply|id chunk|id exception|id|cl frame|cl
                |task provider0]; cbn [react].
  - destruct (frameDataCache w !! task) as [c0|] eqn:Hc0; [|done]. cbn [fst].
    rewrite (getFrame_finish_known task size0 chunkType mode frame first0 last0
               (inl undefinedAccess) c0 w Hc0).
    by apply keeps_getFrame.
  - simpl in Hres. apply bool_decide_eq_false in Hres. cbn [fst].
    unfold getFrame_resume. destruct metaReply as [e|meta0]; [done|].
    rewrite getFrame_finish_other by done. by rewrite lookup_set_cache_ne.
  - by apply (keeps_step w (CallData this p reply)).
  - destruct (fetches w !! id) as [f|]; [|done]. cbn [fst].
    destruct (getData_then (fetch_tid f) chunk w) as [w1|] eqn:Hthen; [|done].
    destruct (getData_then_next _ _ _ _ _ _ Hthen Hc) as (c' & Hc' & _ & ? & ? & ?).
    exists c'. by repeat split.
  - by destruct (fetches w !! id).
  - destruct (fetches w !! id) as [f|]; [|done].
    by apply (keeps_getData_finally (fetch_tid f) (fetch_reject f) (settled id w)).
  - by apply (keeps_step w (DecoderProgress cl frame)).
  - by apply (keeps_step w (DecoderFailure cl)).
  - by apply (keeps_step w (DecoderInternal task provider0)).
Qed.

(** No handler removes a task from the cache, and none changes its meta
    information, chunk size or limit of decoded frames, but a first call of
    [getFrame] for the task that resumes when the task has an entry (it puts
    a new entry in its place): a task that has an entry has one after any
    handlers among which no such call resumes, with these three as they
    were. *)
Theorem known_tasks_persist schedule taskID c (w : World) :
  frameDataCache w !! taskID = Some c →
  Forall (λ r, resumes taskID r = false) schedule →
  ∃ c', frameDataCache (play w schedule).1 !! taskID = Some c'
        ∧ meta c' = meta c ∧ chunkSize c' = chunkSize c
        ∧ decodedBlocksCacheSize c' = decodedBlocksCacheSize c.
Proof.
  revert w c. induction schedule as [|r schedule IH]; intros w c Hc Hquiet.
  - by exists c.
  - apply Forall_cons in Hquiet as [Hr Hquiet]. rewrite play_cons. cbn [fst].
    destruct (kept_react taskID c w r Hc Hr) as (c1 & Hc1 & ? & ? & ?).
    destruct (IH _ c1 Hc1 Hquiet) as (c' & Hc' & ? & ? & ?).
    exists c'. repeat split; congruence.
Qed.

(** ** Callbacks, handler by handler *)

Lemma conserved_finally p taskID reject (w : World) :
  (settlements p (getData_finally taskID reject w).2
   + holders p (getData_finally taskID reject w).1 = holders p w)%nat.
Proof.
  destruct (frameDataCache w !! taskID) as [c|] eqn:Hc;
    [|by unfold getData_finally; rewrite Hc].
  destruct (nextChunkRequest c) as [next|] eqn:Hn.
  - rewrite (getData_finally_promote _ _ c next _ Hc Hn). cbn [fst snd].
    rewrite settlements_app.
    change (settlements p [GetData taskID (chunkNumber next)]) with 0%nat.
    rewrite Nat.add_0_r, <- (Nat.add_0_r (holders p w)).
    eapply (conserved_insert p taskID c); [exact Hc|reflexivity|].
    unfold held. simpl. rewrite Hn. simpl.
    destruct (activeChunkRequest c) as [a|]; simpl.
    + rewrite settlements_rejected. lia.
    + change (settlements p []) with 0%nat. lia.
  - by rewrite (getData_finally_idle _ _ c _ Hc Hn).
Qed.

Lemma conserved_react p (w : World) r :
  isNode = true ∨ isBrowser = true →
  wf_world w → smooth w r →
  (settlements p (react w r).2 + holders p (react w r).1
   = holders p w + if answers_data p r then 1 else 0)%nat.
Proof.
  intros Henv Hw Hsmooth.
  destruct r as [task size0 chunkType mode frame first0 last0
                |task size0 chunkType mode frame first0 last0 metaReply
                |this q reply|id chunk|id exception|id|cl frame|cl
                |task provider0]; cbn [react answers_data]; rewrite ?Nat.add_0_r.
  - destruct (frameDataCache w !! task) as [c0|] eqn:Hc0; [|done]. cbn [fst snd].
    rewrite (getFrame_finish_known task size0 chunkType mode frame first0 last0
               (inl undefinedAccess) c0 w Hc0).
    by rewrite conserved_getFrame.
  - cbn [fst snd]. destruct metaReply as [e|meta0]; [done|]. simpl in Hsmooth.
    pose proof (getFrame_as_reactions task size0 chunkType mode frame first0
                  last0 (inr meta0) w) as Heq.
    rewrite Hsmooth in Heq. rewrite <- Heq. by rewrite conserved_getFrame.
  - by apply conserved_data.
  - destruct (fetches w !! id) as [f|] eqn:Hf; [|done]. cbn [fst snd].
    destruct (Hsmooth f Hf) as [w1 Hthen]. rewrite Hthen. simpl.
    unfold getData_then in Hthen.
    destruct (frameDataCache w !! fetch_tid f) as [c|] eqn:Hc; simpl in Hthen; [|done].
    destruct (activeChunkRequest c) as [a|] eqn:Ha; simpl in Hthen; [|done].
    simplify_eq.
    eapply (holders_insert_same p (fetch_tid f) c); [exact Hc|reflexivity|].
    unfold held. simpl. by rewrite Ha.
  - simpl in Hsmooth. by rewrite Hsmooth.
  - destruct (fetches w !! id) as [f|]; [|done].
    by rewrite conserved_finally.
  - apply conserved_onDecodeAll.
  - apply conserved_rejectRequestAll.
  - destruct (frameDataCache w !! task) as [c|] eqn:Hc; [|done]. cbn [fst snd].
    change (settlements p []) with 0%nat. simpl.
    by eapply (holders_insert_same p task c).
Qed.

(** No callback is lost and none is used twice, as long as nothing goes
    wrong.  Take any handlers, in any order, from the initial state, of
    which no [catch] handler runs (no fetch fails, and every [then] handler
    finds an active request of its task) and no first call of [getFrame]
    resumes when its task has an entry.  Then for every promise the number
    of calls of its continuations plus the number of callbacks that the
    request objects hold for it is the number of handlers of [data] that
    ran for it.  So the promise of one call of [data] is settled at most
    once, and until then exactly one callback is held for it. *)
Theorem waiters_conserved p schedule :
  isNode = true ∨ isBrowser = true →
  smooth_play initial schedule →
  let res := play initial schedule in
  (settlements p res.2 + holders p res.1 = data_answers p schedule)%nat.
Proof.
  intros Henv Hsmooth res. subst res.
  assert (∀ w : World, wf_world w → smooth_play w schedule →
            (settlements p (play w schedule).2 + holders p (play w schedule).1
             = holders p w + data_answers p schedule)%nat) as Hall.
  { clear Hsmooth. induction schedule as [|r schedule IH]; intros w Hw Hsmooth.
    - simpl. unfold data_answers. simpl. change (settlements p []) with 0%nat. lia.
    - destruct Hsmooth as [Hr Hsmooth]. rewrite play_cons. cbn [fst snd].
      rewrite settlements_app.
      pose proof (conserved_react p w r Henv Hw Hr) as Hstep.
      pose proof (IH _ (wf_react w r Hw) Hsmooth) as Hrest.
      unfold data_answers in *. simpl. destruct (answers_data p r); simpl; lia. }
  rewrite (Hall initial wf_initial Hsmooth).
  unfold holders. simpl. by rewrite map_fold_empty.
Qed.

(** ** After a fetch that failed, handler by handler *)




End Properties.

(** * The properties on the task of the example *)

Lemma wf_w_fetching : wf_world w_fetching.
Proof. apply wf_run, wf_run, wf_initial. Qed.

Lemma wf_w_waiting : wf_world w_waiting.
Proof. apply wf_run, wf_w_fetching. Qed.

Lemma wf_w_decoding : wf_world w_decoding.
Proof. apply wf_run, wf_w_fetching. Qed.

(** The run [threeFrames].  Frames 3 and 7 share one call of [getData];
    their callbacks are rejected when the payload arrives, because chunk 1
    is waiting by then; chunk 1 is fetched only then.  The handlers of
    [threeFramesByHandler] make the same calls. *)
Example three_frames :
  (run initial threeFrames).2
  = [ OnServerRequest 100; GetData 1 0;
      OnServerRequest 101;
      OnServerRequest 102;
      Reject 100 (ByFrameNumber 3); Reject 101 (ByFrameNumber 7); GetData 1 1;
      Resolve 102 (ProviderFrame 15) ]
  ∧ (play initial threeFramesByHandler).2 = (run initial threeFrames).2.
Proof. by vm_compute. Qed.

(** C3 on the code.  Chunk 0 is being fetched for the frames 3 and 7 and the
    fetch fails with a network error: only the promise of the call that
    started the fetch (100) is rejected, with the error as an [Exception];
    the callback of frame 7 is neither rejected nor removed, and the active
    request stays, not completed, with no [getData] promise pending. *)
Theorem failed_fetch_keeps_request :
  let res := step w_fetching
               (GetDataSettled 0 (inl (ForeignError (Text "Network Error")))) in
  res.2 = [Reject 100 (ByError (Exception (Text "Network Error")))]
  ∧ activeChunkRequest <$> frameDataCache res.1 !! 1
    = Some (Some {| request := Some 0%nat; chunkNumber := 0; start := 0; stop := 9;
                    onDecodeAll_ref := {| cl_tid := 1; cl_chunkNumber := 0 |};
                    rejectRequestAll_ref := {| cl_tid := 1; cl_chunkNumber := 0 |};
                    completed := false;
                    callbacks := [{| promise := 100; frameNumber := 3 |};
                                  {| promise := 101; frameNumber := 7 |}] |})
  ∧ fetches res.1 = ∅.
Proof. by vm_compute. Qed.

(** C8 on the code.  Task 2 has the frames 0..9 and a chunk size of 2000000.
    For frame 1 the quotient [1 / 2000000] is printed as [5e-7], of which
    [parseInt] reads 5, so that [start] is [max 0 (5 * 2000000) = 10000000]
    and lies behind [stop = 9]; the chunk number, which the code takes with
    [Math.floor], is 0, and [max 0 (0 * 2000000)] is 0.  The request object
    that [data] creates for the frame carries these bounds. *)
Theorem chunk_bounds_in_exponent_notation :
  chunkOf 1 0 9 2000000 = (0, 10000000, 9)
  ∧ 0 `max` (1 `div` 2000000 * 2000000) = 0
  ∧ activeChunkRequest
      <$> frameDataCache (step w_oneChunk (CallData secondFrame 100 (inr None))).1 !! 2
    = Some (Some {| request := Some 0%nat; chunkNumber := 0;
                    start := 10000000; stop := 9;
                    onDecodeAll_ref := {| cl_tid := 2; cl_chunkNumber := 0 |};
                    rejectRequestAll_ref := {| cl_tid := 2; cl_chunkNumber := 0 |};
                    completed := false;
                    callbacks := [{| promise := 100; frameNumber := 1 |}] |}).
Proof. by vm_compute. Qed.

(** C6 as the spec states it fails: the first [getFrame] for task 1, in
    annotation mode for frame 5 with meta information about one frame, is
    refused with an [ArgumentError], and the task has an entry in the cache
    afterwards. *)
Lemma getFrame_error_creates_entry :
  let res := getFrame 1 10 "archive" "annotation" 5 0 99 (inr [fullHD]) initial in
  res.2 = inl (ArgumentError (MetaNotReceived 5))
  ∧ frameDataCache initial !! 1 = None
  ∧ frameDataCache res.1 !! 1 = Some (createdEntry 10 "archive" 5 [fullHD]).
Proof. by vm_compute. Qed.

(** Requests are not strictly sequential when the handlers of each promise
    run with nothing in between either: after the run [lateProgress], in
    which the decoder reports a frame of chunk 0 late, the request for
    chunk 1 is active, its promise 2 is pending, and chunk 2 waits; then
    promise 1, of the earlier request for chunk 0, settles
    ([secondSettles]), which starts the fetch of chunk 2 while promise 2 is
    still pending. *)
Lemma late_progress_breaks_sequence : ¬ strictly_sequential.
Proof.
  intros Hseq.
  specialize (Hseq lateProgress secondSettles).
  unfold next_after_active, starts_next in Hseq.
  set (w := (run initial lateProgress).1) in *.
  set (w' := (step w secondSettles).1) in *.
  evaluate (frameDataCache w !! 1) Hc.
  evaluate (frameDataCache w' !! 1) Hc'.
  evaluate (fetches w' !! 2%nat) Hpending2.
  evaluate (fetches w' !! 3%nat) Hpending3.
  specialize (Hseq 1 _ _ _ 2%nat Hc eq_refl eq_refl eq_refl).
  rewrite Hpending2 in Hseq. discriminate Hseq.
  eexists _, 3%nat. rewrite Hc', Hpending3.
  split; [reflexivity|]. split; [reflexivity|]. split; [reflexivity|]. by eexists.
Qed.

(** C1 on the code.  The fetch of chunk 0 for the frames 3 and 7 fails.
    After that no [getData] promise is pending, and the frames 4 and 5 of
    the same chunk are wanted: both calls are appended to the request that
    was left, and [getData] is not called at all, where the claim has
    exactly one call. *)
Theorem failed_fetch_blocks_same_chunk :
  let failed := (step w_fetching (GetDataSettled 0 (inl networkError))).1 in
  let res := run failed (misses [(frameOf 4, 104%nat); (frameOf 5, 105%nat)]) in
  fetches failed = ∅
  ∧ chunkOf 4 0 99 10 = (0, 0, 9) ∧ chunkOf 5 0 99 10 = (0, 0, 9)
  ∧ res.2 = [OnServerRequest 104; OnServerRequest 105]
  ∧ getData_calls res.2 = []
  ∧ fetches res.1 = ∅
  ∧ callbacks <$> (frameDataCache res.1 !! 1 ≫= activeChunkRequest)
    = Some [{| promise := 100; frameNumber := 3 |};
            {| promise := 101; frameNumber := 7 |};
            {| promise := 104; frameNumber := 4 |};
            {| promise := 105; frameNumber := 5 |}].
Proof. by vm_compute. Qed.

(** C5 on the code.  The frames 3 and 7 wait in the active request and frame
    15 in the next request when the fetch fails.  The promise of the call
    that started the fetch (100) is rejected with the error first, and with
    its frame number only after that, when the next request takes the place
    of the active one: the first rejection of this waiter carries the
    error, not its frame number. *)
Theorem failed_fetch_rejects_starter_with_error :
  (step w_waiting (GetDataSettled 0 (inl networkError))).2
  = [Reject 100 (ByError (Exception (Text "Network Error")));
     Reject 100 (ByFrameNumber 3);
     Reject 101 (ByFrameNumber 7);
     GetData 1 1].
Proof. by vm_compute. Qed.


(** ** The theorems at the task of the example *)

(** The first [getFrame] for an archive in chunks of 9 frames. *)
Lemma decoded_frames_budget_witness :
  0 < 9
  ∧ frameDataCache initial !! 1 = None
  ∧ decodedBlocksCacheSize
      <$> frameDataCache
            (getFrame 1 9 "archive" "annotation" 0 0 99 (inr [fullHD]) initial).1 !! 1
    = Some 55.
Proof.
  split; [lia|]. split; [reflexivity|].
  apply (decoded_frames_budget 1 9 "archive" "annotation" 0 0 99 [fullHD] initial);
    [lia|reflexivity].
Defined.

(** Frame 5 of a task with meta information about one frame. *)
Lemma getFrame_argument_error_witness :
  Z.of_nat (length [fullHD]) ≤ 5
  ∧ getFrame 1 10 "archive" "annotation" 5 0 99 (inr [fullHD]) initial
    = (set_cache 1 (createdEntry 10 "archive" 5 [fullHD]) initial,
       inl (ArgumentError (MetaNotReceived 5))).
Proof.
  split; [simpl; lia|].
  apply (getFrame_argument_error 1 10 "archive" "annotation" 5 0 99 [fullHD] initial).
  - right. split; [reflexivity|simpl; lia].
  - reflexivity.
Defined.

(** Callbacks for chunk 1 while chunk 0 is the active request. *)
Lemma late_callback_is_inert_witness :
  step w_fetching (DecoderProgress {| cl_tid := 1; cl_chunkNumber := 1 |} 15)
  = (w_fetching, [])
  ∧ step w_fetching (DecoderFailure {| cl_tid := 1; cl_chunkNumber := 1 |})
    = (w_fetching, []).
Proof.
  apply (late_callback_is_inert {| cl_tid := 1; cl_chunkNumber := 1 |} 15 w_fetching).
  intros c active Hc Ha. vm_compute in Hc. injection Hc as <-.
  vm_compute in Ha. injection Ha as <-. discriminate.
Defined.

(** Frame 15 of the idle task: chunk 1, frames 10..19. *)
Lemma chunk_of_request_witness :
  0 ≤ number (frameOf 15)
  ∧ chunkOf 15 0 99 10 = (1, 10, 19)
  ∧ ∃ c' r,
      frameDataCache (data_implementation (frameOf 15) 100 (inr None) w_idle).1 !! 1
      = Some c'
      ∧ activeChunkRequest c' = Some r
      ∧ chunkNumber r = 1 ∧ start r = 10 ∧ stop r = 19
      ∧ callbacks r = [{| promise := 100; frameNumber := 15 |}]
      ∧ getData_calls (data_implementation (frameOf 15) 100 (inr None) w_idle).2
        = [(1, 1)].
Proof.
  split; [simpl; lia|].
  evaluate (frameDataCache w_idle !! 1) Hc.
  destruct (chunk_of_request (frameOf 15) 100%nat _ w_idle eq_refl eq_refl
              (wf_run _ _ wf_initial) Hc) as (Hchunk & _ & Huncached);
    [simpl; lia..|].
  split; [exact Hchunk|].
  apply Huncached; [reflexivity|]. left. reflexivity.
Defined.

(** Frames 3 and 7 of the idle task: one call of [getData], for chunk 0. *)
Lemma same_chunk_requests_coalesce_witness :
  0 < 10
  ∧ getData_calls (run w_idle (misses [(frameOf 3, 100%nat); (frameOf 7, 101%nat)])).2
    = [(1, 0)].
Proof.
  split; [lia|].
  evaluate (frameDataCache w_idle !! 1) Hc.
  refine (proj2 (same_chunk_requests_coalesce 1 _ w_idle eq_refl eq_refl
                   (wf_run _ _ wf_initial) Hc _)
            [(frameOf 3, 100%nat); (frameOf 7, 101%nat)] 0 _ _ _).
  - simpl. lia.
  - discriminate.
  - left. reflexivity.
  - intros this p k' first last Hin Hchunk.
    apply elem_of_cons in Hin as [Heq|Hin].
    + injection Heq as -> ->. injection Hchunk as <- <- <-. by vm_compute.
    + apply list_elem_of_singleton in Hin. injection Hin as -> ->.
      injection Hchunk as <- <- <-. by vm_compute.
Defined.


(** ** Further properties at the task of the example *)

(** Frame 15 of the frames 0..99 in chunks of 10: the frames 10..19. *)
Lemma chunk_contains_frame_witness :
  0 ≤ 15 ≤ 99
  ∧ chunkOf 15 0 99 10 = (1, 10, 19)
  ∧ 0 ≤ 10 ∧ 10 ≤ 15 ≤ 19 ∧ 19 ≤ 99 ∧ 19 - 10 < 10.
Proof.
  split; [lia|]. split; [reflexivity|].
  apply (chunk_contains_frame 15 0 99 10); lia.
Defined.

(** The frames 3 and 15 in chunks of 10. *)
Lemma chunks_by_number_witness :
  (chunkOf 3 0 99 10).1.1 < (chunkOf 15 0 99 10).1.1
  ∧ 3 < 15
  ∧ (chunkOf 3 0 99 10).2 < (chunkOf 15 0 99 10).1.2.
Proof.
  split; [reflexivity|].
  apply (chunks_by_number 3 15 0 99 10); [lia..|reflexivity].
Defined.

(** A second [getFrame] for task 1 with another chunk size and type, while
    the server is away. *)
Lemma getFrame_first_call_decides_witness :
  getFrame 1 25 "archive" "interpolation" 4 0 99 (inl networkError) w_idle
  = getFrame 1 10 "video" "interpolation" 4 0 99 (inr [fullHD]) w_idle.
Proof.
  evaluate (frameDataCache w_idle !! 1) Hc.
  exact (proj1 (getFrame_first_call_decides 1 "interpolation" 4 0 99 _ w_idle Hc
                  10 "video" (inr [fullHD]))
           25 "archive" (inl networkError)).
Defined.

(** Frame 42 of task 1 in interpolation mode. *)
Lemma getFrame_descriptor_witness :
  (getFrame 1 10 "video" "interpolation" 42 0 99 (inr []) w_idle).2
  = inr (frameOf 42).
Proof.
  evaluate (frameDataCache w_idle !! 1) Hc.
  rewrite (getFrame_descriptor 1 10 "video" "interpolation" 42 0 99 (inr []) _
             fullHD w_idle Hc); [reflexivity|].
  left. split; reflexivity.
Defined.

(** Frame -1 of task 1 in annotation mode. *)
Lemma getFrame_missing_size_witness :
  -1 < 0
  ∧ (getFrame 1 10 "video" "annotation" (-1) 0 99 (inr []) w_idle).2
    = inl undefinedAccess.
Proof.
  split; [lia|].
  evaluate (frameDataCache w_idle !! 1) Hc.
  rewrite (getFrame_missing_size 1 10 "video" "annotation" (-1) 0 99 (inr []) _
             w_idle Hc); [reflexivity|].
  right. split; [reflexivity|lia].
Defined.

(** The decoder fails to look up frame 3 of task 1. *)
Lemma errors_are_exceptions_witness :
  Reject 100 (ByError (Exception (Text "decoder")))
  ∈ (run w_idle [CallData (frameOf 3) 100 (inl (ForeignError (Text "decoder")))]).2
  ∧ instanceof_Exception (Exception (Text "decoder")) = true.
Proof.
  assert (Reject 100 (ByError (Exception (Text "decoder")))
          ∈ (run w_idle
               [CallData (frameOf 3) 100 (inl (ForeignError (Text "decoder")))]).2)
    as Hin by apply list_elem_of_here.
  split; [exact Hin|].
  apply (errors_are_exceptions
           [CallData (frameOf 3) 100 (inl (ForeignError (Text "decoder")))]
           w_idle) with (p := 100%nat); [|exact Hin].
  intros this p reply Hcall. apply list_elem_of_singleton in Hcall.
  injection Hcall as -> _ _. by eexists.
Defined.

(** The descriptor of frame 0 of task 1, used after frame 3 was requested. *)
Lemma descriptor_task_known_witness :
  (getFrame 1 10 "video" "interpolation" 0 0 99 (inr [fullHD]) initial).2
  = inr (frameOf 0)
  ∧ is_Some
      (frameDataCache
         (run (getFrame 1 10 "video" "interpolation" 0 0 99 (inr [fullHD]) initial).1
            [CallData (frameOf 3) 100 (inr None)]).1 !! 1).
Proof.
  split; [reflexivity|].
  exact (proj1 (descriptor_task_known 1 10 "video" "interpolation" 0 0 99
                  (inr [fullHD]) (frameOf 0)
                  [CallData (frameOf 3) 100 (inr None)] 101%nat (inr None)
                  initial eq_refl)).
Defined.

(** The decoder holds frame 3 of task 1. *)
Lemma data_without_server_witness :
  (step w_idle frameHeld).1 = w_idle.
Proof.
  apply (data_without_server (H := listDecoder) (frameOf 3) 100%nat _ w_idle).
  - by eexists.
  - right. split; [reflexivity|discriminate].
Defined.

(** Frame 3 of the idle task 1. *)
Lemma miss_notifies_once_witness :
  ∃ calls,
    (step w_idle (CallData (frameOf 3) 100 (inr None))).2
    = OnServerRequest 100 :: calls
    ∧ Forall (turns_away_or_fetches 1) calls
    ∧ (length (getData_calls calls) ≤ 1)%nat.
Proof.
  apply (miss_notifies_once (frameOf 3) 100 w_idle); [reflexivity..|].
  by eexists.
Defined.

(** Frame 15 is wanted while chunk 0 is being fetched. *)
Lemma miss_registers_waiter_witness :
  step w_fetching (CallData (frameOf 15) 102 (inr None))
  = (w_fetching,
     [OnServerRequest 102; Reject 102 (ByError (asException undefinedAccess))])
  ∨ ∃ c' r,
      frameDataCache (step w_fetching (CallData (frameOf 15) 102 (inr None))).1 !! 1
      = Some c'
      ∧ (activeChunkRequest c' = Some r ∨ nextChunkRequest c' = Some r)
      ∧ last (callbacks r) = Some {| promise := 102; frameNumber := 15 |}.
Proof.
  apply (miss_registers_waiter (frameOf 15) 102 w_fetching); [reflexivity..|].
  by eexists.
Defined.

(** Frame 5 is wanted while chunk 0 is being fetched and the decoder holds
    the frames 0..9. *)
Lemma cached_chunk_waiter_witness :
  isChunkCached [(0, 9)] 0 9 = true
  ∧ Resolve 103 (ProviderFrame 5)
    ∈ (step (step w_cached (CallData (frameOf 5) 103 (inr None))).1
         (DecoderProgress {| cl_tid := 1; cl_chunkNumber := 0 |} 5)).2.
Proof.
  split; [reflexivity|].
  evaluate (frameDataCache w_cached !! 1) Hc.
  destruct (cached_chunk_waiter (frameOf 5) 103%nat _ _ 0 0 9 w_cached
              eq_refl eq_refl Hc eq_refl eq_refl eq_refl)
    as (_ & _ & Hresolved & _).
  apply Hresolved. reflexivity.
Defined.


(** The payload of the second fetch of chunk 0 arrives after the late report
    of frame 5. *)
Lemma payload_without_active_request_witness :
  fetches w_cleared !! 1%nat = Some {| fetch_tid := 1; fetch_reject := 101 |}
  ∧ Reject 101 (ByError (Exception (Text "TypeError")))
    ∈ (step w_cleared secondSettles).2.
Proof.
  split; [reflexivity|].
  apply (payload_without_active_request (H := listDecoder) 1%nat
           {| fetch_tid := 1; fetch_reject := 101 |} 0 w_cleared eq_refl).
  intros c Hc. vm_compute in Hc. injection Hc as <-. reflexivity.
Defined.

(** Frame 3 is reported while the promises 100 and 104 wait for it. *)
Lemma progress_resolves_latest_first_witness :
  (step w_twice (DecoderProgress {| cl_tid := 1; cl_chunkNumber := 0 |} 3)).2
  = [Resolve 104 (ProviderFrame 3); Resolve 100 (ProviderFrame 3)].
Proof.
  evaluate (frameDataCache w_twice !! 1) Hc.
  destruct (progress_resolves_latest_first {| cl_tid := 1; cl_chunkNumber := 0 |} 3
              _ _ w_twice Hc eq_refl eq_refl) as [Htrace _].
  rewrite Htrace. by vm_compute.
Defined.

(** A first [getFrame] and a call of [data] under Node.js. *)
Lemma node_never_fetches_witness :
  (run (H := nodeDecoder) initial
     [CallGetFrame 1 10 "video" "interpolation" 3 0 99 (inr [fullHD]);
      CallData (frameOf 3) 100 (inr None)]).2
  = [Resolve 100 DummyData]
  ∧ getData_calls
      (run (H := nodeDecoder) initial
         [CallGetFrame 1 10 "video" "interpolation" 3 0 99 (inr [fullHD]);
          CallData (frameOf 3) 100 (inr None)]).2
    = [].
Proof.
  split; [reflexivity|].
  apply (node_never_fetches (H := nodeDecoder)
           [CallGetFrame 1 10 "video" "interpolation" 3 0 99 (inr [fullHD]);
            CallData (frameOf 3) 100 (inr None)]).
  reflexivity.
Defined.

(** The decoder fails on chunk 0 while the frames 3 and 7 wait for it. *)
Lemma decoder_failure_rejects_waiters_witness :
  (step w_decoding (DecoderFailure {| cl_tid := 1; cl_chunkNumber := 0 |})).2
  = [Reject 100 (ByFrameNumber 3); Reject 101 (ByFrameNumber 7)].
Proof.
  evaluate (frameDataCache w_decoding !! 1) Hc.
  destruct (decoder_failure_rejects_waiters {| cl_tid := 1; cl_chunkNumber := 0 |}
              _ _ w_decoding Hc eq_refl eq_refl) as [Htrace _].
  rewrite Htrace. reflexivity.
Defined.

(** Frame 15 is wanted while chunk 0 is with the decoder, and frame 25 while
    frame 15 waits behind the fetch of chunk 0. *)
Lemma data_displaces_with_frame_numbers_witness :
  (step w_decoding (CallData (frameOf 15) 102 (inr None))).2
  = [OnServerRequest 102; Reject 100 (ByFrameNumber 3);
     Reject 101 (ByFrameNumber 7); GetData 1 1]
  ∧ (step w_waiting (CallData (frameOf 25) 103 (inr None))).2
    = [OnServerRequest 103; Reject 102 (ByFrameNumber 15)].
Proof.
  evaluate (frameDataCache w_decoding !! 1) Hc.
  evaluate (frameDataCache w_waiting !! 1) Hc'.
  split.
  - rewrite (proj1 (data_displaces_with_frame_numbers (frameOf 15) 102%nat _ 1 10 19
                      w_decoding eq_refl eq_refl wf_w_decoding Hc eq_refl eq_refl)
               _ eq_refl eq_refl).
    reflexivity.
  - rewrite (proj2 (data_displaces_with_frame_numbers (frameOf 25) 103%nat _ 2 20 29
                      w_waiting eq_refl eq_refl wf_w_waiting Hc' eq_refl eq_refl)
               _ _ eq_refl eq_refl ltac:(discriminate) eq_refl).
    reflexivity.
Defined.

(** Task 1 after a request for frame 3 and the arrival of chunk 0. *)
Lemma known_tasks_persist_witness :
  ∃ c', frameDataCache
          (play w_idle [DataAnswered (frameOf 3) 100 (inr None);
                        ThenRuns 0 0; FinallyRuns 0]).1 !! 1
        = Some c'
        ∧ meta c' = [fullHD] ∧ chunkSize c' = 10
        ∧ decodedBlocksCacheSize c' = 25.
Proof.
  evaluate (frameDataCache w_idle !! 1) Hc.
  refine (known_tasks_persist
            [DataAnswered (frameOf 3) 100 (inr None); ThenRuns 0 0; FinallyRuns 0]
            1 _ w_idle Hc _).
  repeat constructor.
Defined.

(** The promise of frame 15 in the run [threeFramesByHandler]. *)
Lemma waiters_conserved_witness :
  smooth_play initial threeFramesByHandler
  ∧ (settlements 102 (play initial threeFramesByHandler).2
     + holders 102 (play initial threeFramesByHandler).1 = 1)%nat.
Proof.
  assert (smooth_play initial threeFramesByHandler) as Hsmooth.
  { repeat split.
    - intros f Hf. vm_compute in Hf. injection Hf as <-. by eexists.
    - intros f Hf. vm_compute in Hf. injection Hf as <-. by eexists. }
  split; [exact Hsmooth|].
  apply (waiters_conserved 102 threeFramesByHandler); [|exact Hsmooth].
  right. reflexivity.
Defined.

